(** * Mystic Lotus: a shallow embedding of the particle lotus and its
      gesture control

    The development follows the TypeScript sources:
    - [HandTracker] (first component of [src/components/HandTracker.tsx]):
      the [predict] loop and the open/close classifier;
    - [LotusParticles] (second component of the same file): the petal
      surface [calculatePetalShape], the geometry generator of [useMemo],
      the per-frame smoother of [useFrame] and the vertex shader;
    - [App] ([src/unnamed/part_001]): the palette and [handleSwipe].

    JavaScript and GLSL numbers are modelled by the real numbers of the
    Standard Library: every arithmetic operation is the exact one, rounding
    to binary64 (or binary32 on the GPU) is not modelled, and neither are
    NaN and the infinities.  Integer quantities that the code only ever uses
    as loop bounds and indices are kept in [Z] and [nat].

    Library functions the sources call are written out from their
    definitions in three.js ([MathUtils.lerp], [Color.lerp]) and in GLSL
    ([mix], [smoothstep], [clamp]); [new THREE.Color(style)] and
    [Color.offsetHSL] are parameters of the generator, as is the sequence of
    values that [Math.random] returns. *)

From Stdlib Require Import Reals Lra Lia ZArith List String Bool.
Import ListNotations.
Open Scope R_scope.

Set Implicit Arguments.

(* ================================================================== *)
(** * JavaScript numbers and the [Math] object *)
(* ================================================================== *)

Module JS.

(** Comparisons on numbers, as booleans. *)
Definition ltb (x y : R) : bool := if Rlt_dec x y then true else false.
Definition gtb (x y : R) : bool := ltb y x.
(** [x !== y] on numbers. *)
Definition neqb (x y : R) : bool := if Req_dec_T x y then false else true.

Definition Math_PI : R := PI.
Definition Math_sin : R -> R := sin.
Definition Math_cos : R -> R := cos.
Definition Math_sqrt : R -> R := sqrt.
Definition Math_abs : R -> R := Rabs.
Definition Math_max : R -> R -> R := Rmax.
Definition Math_min : R -> R -> R := Rmin.
Definition Math_floor : R -> Z := Zfloor.

(** Is the number an integer? *)
Definition is_integer (y : R) : bool :=
  if Req_dec_T y (IZR (Zfloor y)) then true else false.

(** [Math.pow(x, y)] on the part of its domain where the result is a real
    number: an integral exponent gives the iterated product (or its
    inverse), a positive base gives [exp (y * ln x)], and base zero with a
    fractional exponent gives [0].  A negative base with a fractional
    exponent is NaN in JavaScript; the code never calls [Math.pow] there
    and the model returns [0]. *)
Definition Math_pow (x y : R) : R :=
  if is_integer y then powerRZ x (Zfloor y)
  else if Rlt_dec 0 x then Rpower x y
  else 0.

(** [arr[k]] for a number [k]: [undefined] (here [None]) outside the
    array. *)
Definition index {A : Type} (arr : list A) (k : Z) : option A :=
  if (k <? 0)%Z then None else nth_error arr (Z.to_nat k).

End JS.

(* ================================================================== *)
(** * three.js: [MathUtils], [Vector3], [Color] *)
(* ================================================================== *)

Module THREE.

(** [MathUtils.lerp(x, y, t)] of three.js: [(1 - t) * x + t * y].  The
    interpolation factor is not clamped. *)
Definition lerp (x y t : R) : R := (1 - t) * x + t * y.

Record Vector3 : Type := vec3 { vx : R; vy : R; vz : R }.

Record Color : Type := rgb { r : R; g : R; b : R }.

(** [c.lerp(color, alpha)]: each channel moves by [alpha] of the way. *)
Definition Color_lerp (c color : Color) (alpha : R) : Color :=
  rgb (r c + (r color - r c) * alpha)
      (g c + (g color - g c) * alpha)
      (b c + (b color - b c) * alpha).

End THREE.

(* ================================================================== *)
(** * GLSL built-ins used by the vertex shader *)
(* ================================================================== *)

Module GLSL.

Definition clamp (x lo hi : R) : R := Rmin (Rmax x lo) hi.

(** [mix(x, y, a) = x * (1 - a) + y * a]. *)
Definition mix (x y a : R) : R := x * (1 - a) + y * a.

(** [smoothstep(edge0, edge1, x)]: Hermite interpolation of the clamped
    ratio. *)
Definition smoothstep (edge0 edge1 x : R) : R :=
  let t := clamp ((x - edge0) / (edge1 - edge0)) 0 1 in
  t * t * (3 - 2 * t).

Definition mix3 (p q : THREE.Vector3) (a : R) : THREE.Vector3 :=
  THREE.vec3 (mix (THREE.vx p) (THREE.vx q) a)
             (mix (THREE.vy p) (THREE.vy q) a)
             (mix (THREE.vz p) (THREE.vz q) a).

End GLSL.

(* ================================================================== *)
(** * The configuration record ([LotusConfig] of [types.ts]) *)
(* ================================================================== *)

(** The declaration lives in [types.ts]; the fields are the ones [App.tsx]
    initialises.  [petalCount] is the particle target and [layers] the
    layer count; both are integers. *)
Record LotusConfig : Type := mkConfig {
  petalCount : Z;
  layers : Z;
  particleSize : R;
  rotationSpeed : R;
  bloomIntensity : R
}.

(** The configuration [App] starts with. *)
Definition initialConfig : LotusConfig :=
  mkConfig 80000 4 0.06 0.1 1.5.

(* ================================================================== *)
(** * [HandTracker.tsx]: the inference loop and the open/close classifier *)
(* ================================================================== *)

Module HandTracker.

(** One landmark of the hand-landmark detector (normalised image
    coordinates). *)
Record Landmark : Type := landmark { x : R; y : R; z : R }.

(** [dist] of [predict]: the Euclidean distance of two landmarks. *)
Definition dist (p1 p2 : Landmark) : R :=
  JS.Math_sqrt (JS.Math_pow (x p1 - x p2) 2 +
                JS.Math_pow (y p1 - y p2) 2 +
                JS.Math_pow (z p1 - z p2) 2).

(** [dist] is declared on [any]: reading [.x] of [undefined] throws, which
    is [None] here. *)
Definition dist_any (p1 p2 : option Landmark) : option R :=
  match p1, p2 with
  | Some a, Some b => Some (dist a b)
  | _, _ => None
  end.

(** Index, middle, ring and pinky tips, and the corresponding PIP
    joints. *)
Definition fingers : list nat := [8; 12; 16; 20]%nat.
Definition pips : list nat := [6; 10; 14; 18]%nat.

(** [landmarks[table[i]]]. *)
Definition joint (landmarks : list Landmark) (table : list nat) (i : nat)
  : option Landmark :=
  match nth_error table i with
  | Some j => nth_error landmarks j
  | None => None
  end.

(** The loop [for (let i = 0; i < 4; i++)] with its counter
    [extendedCount]; [n] is the number of iterations still to run. *)
Fixpoint count_loop (landmarks : list Landmark) (wrist : option Landmark)
         (i n : nat) (extendedCount : nat) : option nat :=
  match n with
  | O => Some extendedCount
  | S n' =>
      match dist_any wrist (joint landmarks fingers i),
            dist_any wrist (joint landmarks pips i) with
      | Some dTip, Some dPip =>
          count_loop landmarks wrist (S i) n'
            (if JS.gtb dTip dPip then S extendedCount else extendedCount)
      | _, _ => None
      end
  end.

Definition extendedCount (landmarks : list Landmark) : option nat :=
  let wrist := nth_error landmarks 0 in
  count_loop landmarks wrist 0 4 0.

(** [isHandOpen = extendedCount >= 3]; [None] when a landmark is missing
    and the classifier throws. *)
Definition isHandOpen (landmarks : list Landmark) : option bool :=
  match extendedCount landmarks with
  | Some c => Some (3 <=? c)%nat
  | None => None
  end.

(** What one call of [predict] does to the outside world, in order. *)
Inductive Event : Type :=
| DetectForVideo (currentTime nowInMs : R)
| SetHandDetected (v : bool)
| PresenceChange (isPresent : bool)
| BloomChange (isBlooming : bool)
| RequestAnimationFrame.

Record Video : Type := mkVideo { readyState : Z; currentTime : R }.

(** What a call of [predict] finds: the two refs, the clock, and what the
    detector answers if it is asked ([result.landmarks]). *)
Record Env : Type := mkEnv {
  landmarkerRef : bool;
  videoRef : option Video;
  Date_now : R;
  detected : option (list (list Landmark))
}.

Record Outcome : Type := mkOutcome {
  lastVideoTime' : R;
  events : list Event;
  thrown : bool
}.

(** The guard of [predict]:
    [landmarkerRef.current && videoRef.current &&
     videoRef.current.readyState >= 2]. *)
Definition ready (env : Env) : bool :=
  landmarkerRef env &&
  match videoRef env with
  | Some v => (2 <=? readyState v)%Z
  | None => false
  end.

(** One call of [predict], from the value of [lastVideoTimeRef]. *)
Definition predict (env : Env) (lastVideoTime : R) : Outcome :=
  match videoRef env with
  | Some video =>
      if landmarkerRef env && (2 <=? readyState video)%Z then
        let nowInMs := Date_now env in
        if JS.neqb (currentTime video) lastVideoTime then
          let last := currentTime video in
          let ev := [DetectForVideo (currentTime video) nowInMs] in
          match detected env with
          | Some (landmarks :: _) =>
              let ev := ev ++ [SetHandDetected true; PresenceChange true] in
              match isHandOpen landmarks with
              | Some open =>
                  mkOutcome last
                    (ev ++ [BloomChange open; RequestAnimationFrame]) false
              | None => mkOutcome last ev true
              end
          | _ =>
              mkOutcome last
                (ev ++ [SetHandDetected false; PresenceChange false;
                        BloomChange false; RequestAnimationFrame]) false
          end
        else mkOutcome lastVideoTime [RequestAnimationFrame] false
      else mkOutcome lastVideoTime [RequestAnimationFrame] false
  | None => mkOutcome lastVideoTime [RequestAnimationFrame] false
  end.

(** The state the loop and its callbacks write: the ref, the component's
    [handDetected], and the two signals [App] keeps
    ([onPresenceChange = setHandPresent], [onBloomChange = setIsBlooming]). *)
Record State : Type := mkState {
  lastVideoTimeRef : R;
  handDetected : bool;
  isHandPresent : bool;
  isBlooming : bool
}.

Definition initialState : State := mkState (-1) false false false.

Definition apply_event (st : State) (e : Event) : State :=
  match e with
  | SetHandDetected v =>
      mkState (lastVideoTimeRef st) v (isHandPresent st) (isBlooming st)
  | PresenceChange v =>
      mkState (lastVideoTimeRef st) (handDetected st) v (isBlooming st)
  | BloomChange v =>
      mkState (lastVideoTimeRef st) (handDetected st) (isHandPresent st) v
  | DetectForVideo _ _ | RequestAnimationFrame => st
  end.

(** One tick of the inference loop. *)
Definition tick (env : Env) (st : State) : State :=
  let out := predict env (lastVideoTimeRef st) in
  let st1 := mkState (lastVideoTime' out) (handDetected st)
                     (isHandPresent st) (isBlooming st) in
  fold_left apply_event (events out) st1.

(** Was the detector asked during these events? *)
Definition is_detect (e : Event) : bool :=
  match e with DetectForVideo _ _ => true | _ => false end.

Definition detector_invoked (env : Env) (st : State) : bool :=
  existsb is_detect (events (predict env (lastVideoTimeRef st))).

End HandTracker.

(* ================================================================== *)
(** * [LotusParticles.tsx]: petal surface, geometry generator, smoother,
      vertex shader *)
(* ================================================================== *)

Module LotusParticles.
Import THREE.

(** ** The petal surface *)

(** [calculatePetalShape(u, v, layerIndex, totalLayers, target)]: the point
    written into [target] and the returned [maxOpenAngle]. *)
Definition calculatePetalShape (u v layerIndex totalLayers : R)
  : Vector3 * R :=
  let layerRatio := layerIndex / totalLayers in
  let scale := 2.5 + layerRatio * 4 in
  let widthProfile := JS.Math_sin (u * JS.Math_PI) in
  let taper := 1.0 - JS.Math_pow u 3.0 in
  let width := (v - 0.5) * widthProfile * taper * scale * 0.9 in
  let height := u * scale * 2.2 in
  let sideCurl := JS.Math_pow (JS.Math_abs (v - 0.5) * 2.0) 2.0 * u * 1.5 in
  let lengthCurve := JS.Math_sin (u * JS.Math_PI * 0.4) * 1.0 in
  let depth := (sideCurl + lengthCurve) * scale * 0.3 in
  let maxOpenAngle := 0.2 + JS.Math_pow layerRatio 1.5 * 1.5 in
  (vec3 width height depth, maxOpenAngle).

(** The angle alone, as a function of the layer. *)
Definition maxOpenAngle (layerIndex totalLayers : R) : R :=
  snd (calculatePetalShape 0 0 layerIndex totalLayers).

(** ** The layer table *)

Record Layer : Type := mkLayer { count : nat; offset : R }.

Definition layersDef : list Layer :=
  [ mkLayer 5 0; mkLayer 8 0.5; mkLayer 12 0.0;
    mkLayer 18 0.3; mkLayer 24 0.1; mkLayer 32 0.4 ].

Definition veins : nat := 7.
Definition auraCount : nat := Z.to_nat 8000.

(** ** The generator's state: the four growing arrays and the number of
    calls of [Math.random] made so far *)

Record GenState : Type := mkGen {
  drawn : nat;
  tempPos : list R;
  tempCol : list R;
  tempInfo : list R;
  tempRand : list R
}.

Definition Gen (A : Type) : Type := GenState -> A * GenState.

Definition ret {A : Type} (a : A) : Gen A := fun s => (a, s).
Definition bind {A B : Type} (m : Gen A) (k : A -> Gen B) : Gen B :=
  fun s => let (a, s') := m s in k a s'.

Declare Scope gen_scope.
Delimit Scope gen_scope with gen.
Notation "x <- m ;; k" := (bind m (fun x => k))
  (at level 61, m at next level, right associativity) : gen_scope.
Notation "m ;;; k" := (bind m (fun _ => k))
  (at level 61, right associativity) : gen_scope.
Local Open Scope gen_scope.

Definition push_pos (a b c : R) : Gen unit := fun s =>
  (tt, mkGen (drawn s) (tempPos s ++ [a; b; c]) (tempCol s)
             (tempInfo s) (tempRand s)).
Definition push_col (a b c : R) : Gen unit := fun s =>
  (tt, mkGen (drawn s) (tempPos s) (tempCol s ++ [a; b; c])
             (tempInfo s) (tempRand s)).
Definition push_info (a b c : R) : Gen unit := fun s =>
  (tt, mkGen (drawn s) (tempPos s) (tempCol s)
             (tempInfo s ++ [a; b; c]) (tempRand s)).
Definition push_rand (a b c : R) : Gen unit := fun s =>
  (tt, mkGen (drawn s) (tempPos s) (tempCol s)
             (tempInfo s) (tempRand s ++ [a; b; c])).

(** [for (let i = 0; i < n; i++) body(i)], started at [i] with [n]
    iterations to go. *)
Fixpoint for_from (i n : nat) (body : nat -> Gen unit) : Gen unit :=
  match n with
  | O => ret tt
  | S n' => body i ;;; for_from (S i) n' body
  end.

Definition for_range (n : nat) (body : nat -> Gen unit) : Gen unit :=
  for_from 0 n body.

(** [arr.forEach((x, idx) => body(x, idx))]. *)
Fixpoint forEach_from {A : Type} (idx : nat) (arr : list A)
         (body : A -> nat -> Gen unit) : Gen unit :=
  match arr with
  | [] => ret tt
  | a :: rest => body a idx ;;; forEach_from (S idx) rest body
  end.

Definition forEach {A : Type} (arr : list A) (body : A -> nat -> Gen unit)
  : Gen unit := forEach_from 0 arr body.

(** The four attribute arrays handed to the renderer. *)
Record Geometry : Type := mkGeometry {
  positions : list R;
  colors : list R;
  infos : list R;
  randoms : list R
}.

Section Generator.

(** The sequence of values [Math.random] returns, in call order. *)
Variable random_seq : nat -> R.

(** The two operations of [THREE.Color] whose code is three.js's:
    [new THREE.Color(style)] and [c.offsetHSL(h, s, l)]. *)
Variable Color_ofStyle : string -> Color.
Variable Color_offsetHSL : Color -> R -> R -> R -> Color.

Definition Math_random : Gen R := fun s =>
  (random_seq (drawn s),
   mkGen (S (drawn s)) (tempPos s) (tempCol s) (tempInfo s) (tempRand s)).

(** The colour of one petal point (the block COLOR MIXING). *)
Definition mixColor (colDeep colMain colLight colTip colGold : Color)
           (layerIdx : nat) (u v : R) : Color :=
  let mixColor := colDeep in
  if (layerIdx =? 0)%nat && JS.ltb u 0.3 then
    Color_lerp mixColor colGold 0.8
  else
    let mixColor :=
      if JS.ltb u 0.2 then Color_lerp mixColor colDeep 0.8
      else if JS.ltb u 0.6 then Color_lerp mixColor colMain u
      else Color_lerp (Color_lerp mixColor colMain 0.2) colLight
                      ((u - 0.5) * 2.5) in
    let mixColor :=
      if JS.gtb u 0.92 then Color_lerp mixColor colTip 0.8
      else mixColor in
    if JS.ltb (JS.Math_abs (v - 0.5)) 0.05
    then Color_lerp mixColor colLight 0.3
    else mixColor.

(** The body of the innermost loop: one particle of a vein. *)
Definition vein_point (colDeep colMain colLight colTip colGold : Color)
           (layerIdx : nat) (petalRotation layerYOffset : R)
           (pointsPerVein : Z) (vBase : R) (i : nat) : Gen unit :=
  r1 <- Math_random ;;
  let u := INR i / IZR pointsPerVein + (r1 - 0.5) * 0.02 in
  r2 <- Math_random ;;
  let v := vBase + (r2 - 0.5) * 0.05 in
  let u := JS.Math_max 0 (JS.Math_min 1 u) in
  let v := JS.Math_max 0 (JS.Math_min 1 v) in
  let (vec, maxAngle) :=
    calculatePetalShape u v (INR layerIdx) (INR (List.length layersDef)) in
  push_pos (vx vec) (vy vec) (vz vec) ;;;
  push_info petalRotation maxAngle layerYOffset ;;;
  r3 <- Math_random ;;
  r4 <- Math_random ;;
  r5 <- Math_random ;;
  push_rand ((r3 - 0.5) * 30) ((r4 - 0.5) * 20) ((r5 - 0.5) * 20) ;;;
  let c := mixColor colDeep colMain colLight colTip colGold layerIdx u v in
  push_col (r c) (g c) (b c).

(** One petal: seven veins of [pointsPerVein] points. *)
Definition petal (colDeep colMain colLight colTip colGold : Color)
           (particlesPerPetal : Z) (layer : Layer) (layerIdx : nat)
           (p : nat) : Gen unit :=
  let petalsInLayer := count layer in
  let angleStep := (JS.Math_PI * 2) / INR petalsInLayer in
  let petalRotation := INR p * angleStep + offset layer in
  let layerYOffset := - (INR layerIdx * 0.25) in
  let pointsPerVein :=
    JS.Math_floor (IZR particlesPerPetal / INR veins) in
  for_range veins (fun vIdx =>
    let vBase := (INR vIdx + 0.5) / INR veins in
    for_range (Z.to_nat pointsPerVein)
      (vein_point colDeep colMain colLight colTip colGold
                  layerIdx petalRotation layerYOffset pointsPerVein vBase)).

(** One aura particle (floating pollen). *)
Definition aura_point (colMain colLight : Color) (i : nat) : Gen unit :=
  r1 <- Math_random ;;
  let r := 2 + r1 * 8 in
  r2 <- Math_random ;;
  let theta := r2 * JS.Math_PI * 2 in
  r3 <- Math_random ;;
  let y := (r3 - 0.5) * 10 in
  push_pos (r * JS.Math_cos theta) y (r * JS.Math_sin theta) ;;;
  push_info 0 (-1.0) 0 ;;;
  r4 <- Math_random ;;
  r5 <- Math_random ;;
  r6 <- Math_random ;;
  push_rand ((r4 - 0.5) * 40) ((r5 - 0.5) * 30) ((r6 - 0.5) * 40) ;;;
  r7 <- Math_random ;;
  let auraCol := if JS.gtb r7 0.5 then colLight else colMain in
  push_col (THREE.r auraCol * 0.6) (THREE.g auraCol * 0.6)
           (THREE.b auraCol * 0.6).

(** [totalPetals = layersDef.reduce((sum, l) => sum + l.count, 0)]. *)
Definition totalPetals : nat :=
  fold_left (fun sum l => (sum + count l)%nat) layersDef 0%nat.

Definition particlesPerPetal (config : LotusConfig) : Z :=
  let totalParticles := petalCount config in
  JS.Math_floor (IZR totalParticles / INR totalPetals).

(** The body of [useMemo], as a computation on the four arrays. *)
Definition generate_body (config : LotusConfig) (activeColor : string)
  : Gen unit :=
  let baseCol := Color_ofStyle activeColor in
  let colDeep := Color_offsetHSL baseCol 0 0 (-0.4) in
  let colMain := baseCol in
  let colLight := Color_offsetHSL baseCol 0 (-0.2) 0.3 in
  let colTip := Color_ofStyle "#ffffff" in
  let colGold := Color_ofStyle "#ffaa00" in
  let particlesPerPetal := particlesPerPetal config in
  forEach layersDef (fun layer layerIdx =>
    let petalsInLayer := count layer in
    for_range petalsInLayer
      (petal colDeep colMain colLight colTip colGold
             particlesPerPetal layer layerIdx)) ;;;
  for_range auraCount (aura_point colMain colLight).

Definition emptyState : GenState := mkGen 0 [] [] [] [].

(** The final state of the generator, and the geometry it returns. *)
Definition generate_state (config : LotusConfig) (activeColor : string)
  : GenState :=
  snd (generate_body config activeColor emptyState).

Definition generate (config : LotusConfig) (activeColor : string)
  : Geometry :=
  let s := generate_state config activeColor in
  mkGeometry (tempPos s) (tempCol s) (tempInfo s) (tempRand s).

End Generator.

(** [count={positions.length / 3}]: the number of particles of an
    attribute array with [itemSize = 3]. *)
Definition itemCount (array : list R) : R := INR (List.length array) / 3.

(** The attribute of particle [k] in an array with [itemSize = 3]. *)
Definition attribute (array : list R) (k : nat) : option Vector3 :=
  match nth_error array (3 * k), nth_error array (3 * k + 1),
        nth_error array (3 * k + 2) with
  | Some a, Some b, Some c => Some (vec3 a b c)
  | _, _, _ => None
  end.

(** ** The per-frame smoother ([useFrame]) *)

Record Uniforms : Type := mkUniforms {
  uTime : R;
  uSize : R;
  uBloomIntensity : R;
  uBloomState : R;
  uFormState : R
}.

(** [LotusShaderMaterial.uniforms] as declared. *)
Definition initialUniforms : Uniforms := mkUniforms 0 0.0 1.0 0.0 0.0.

(** What [useFrame] reads and writes between frames: the rotation of the
    points object, the two refs and the uniforms of the material. *)
Record FrameState : Type := mkFrame {
  rotation_y : R;
  currentBloomRef : R;
  currentFormRef : R;
  uniforms : Uniforms
}.

Definition initialFrame : FrameState := mkFrame 0 0.0 0.0 initialUniforms.

(** The props and refs one frame sees. *)
Record FrameInput : Type := mkInput {
  config : LotusConfig;
  isBlooming : bool;
  isHandPresent : bool;
  pointsRef : bool;
  shaderRef : bool;
  elapsedTime : R;
  delta : R
}.

Definition targetBloom (inp : FrameInput) : R :=
  if isBlooming inp then 1.0 else 0.0.
Definition targetForm (inp : FrameInput) : R :=
  if isHandPresent inp then 1.0 else 0.0.

(** The callback of [useFrame((state, delta) => ...)]. *)
Definition useFrame (inp : FrameInput) (st : FrameState) : FrameState :=
  let rotation_y :=
    if pointsRef inp
    then rotation_y st + delta inp * rotationSpeed (config inp)
    else rotation_y st in
  let targetBloom := targetBloom inp in
  let currentBloom :=
    THREE.lerp (currentBloomRef st) targetBloom (delta inp * 2.0) in
  let targetForm := targetForm inp in
  let currentForm :=
    THREE.lerp (currentFormRef st) targetForm (delta inp * 1.5) in
  let uniforms :=
    if shaderRef inp
    then mkUniforms (elapsedTime inp) (particleSize (config inp))
                    (bloomIntensity (config inp)) currentBloom currentForm
    else uniforms st in
  mkFrame rotation_y currentBloom currentForm uniforms.

(** ** The vertex shader *)

(** [bool isAura = aInfo.y < -0.5]. *)
Definition isAura (aInfo : Vector3) : bool := JS.ltb (vy aInfo) (-0.5).

(** [float cycle = smoothstep(0.0, 1.0, uBloomState)]. *)
Definition cycle (uBloomState : R) : R := GLSL.smoothstep 0.0 1.0 uBloomState.

(** [currentAngle] of the petal branch. *)
Definition currentAngle (aInfo : Vector3) (uBloomState : R) : R :=
  let targetAngle := vy aInfo in
  let closedAngle := targetAngle * 0.15 in
  GLSL.mix closedAngle targetAngle (cycle uBloomState).

(** [flowerPos] at the end of the branch on [isAura]. *)
Definition flowerPos_branch (u : Uniforms) (position aInfo : Vector3)
  : Vector3 :=
  let flowerPos := position in
  if negb (isAura aInfo) then
    let currentAngle := currentAngle aInfo (uBloomState u) in
    let c := cos currentAngle in
    let s := sin currentAngle in
    let posRotatedX :=
      vec3 (vx flowerPos)
           (vy flowerPos * c - vz flowerPos * s)
           (vy flowerPos * s + vz flowerPos * c) in
    let rotY := vx aInfo in
    let cy := cos rotY in
    let sy := sin rotY in
    let flowerPos :=
      vec3 (vx posRotatedX * cy - vz posRotatedX * sy)
           (vy posRotatedX + vz aInfo)
           (vx posRotatedX * sy + vz posRotatedX * cy) in
    vec3 (vx flowerPos) (vy flowerPos - 1.5) (vz flowerPos)
  else
    let y' := vy flowerPos + sin (uTime u * 0.5 + vx flowerPos * 2.0) * 0.3 in
    let x' := vx flowerPos + cos (uTime u * 0.3 + vz flowerPos) * 0.1 in
    vec3 x' y' (vz flowerPos).

Record VertexOut : Type := mkVertexOut {
  finalPos : Vector3;
  vColor : Vector3;
  vAlpha : R
}.

(** [main] of the vertex shader up to [finalPos] and the varyings; the
    projection by the scene's matrices is the renderer's. *)
Definition vertex_main (u : Uniforms)
           (position aInfo color aRandomPos : Vector3) : VertexOut :=
  let flowerPos := flowerPos_branch u position aInfo in
  let flowerPos :=
    vec3 (vx flowerPos + sin (uTime u * 5.0 + vy flowerPos) * 0.005)
         (vy flowerPos) (vz flowerPos) in
  let chaosPos :=
    vec3 (vx aRandomPos + sin (uTime u * 0.4 + vx aInfo * 10.0) * 1.5)
         (vy aRandomPos + cos (uTime u * 0.3 + vy aInfo * 10.0) * 1.5)
         (vz aRandomPos + sin (uTime u * 0.5 + vz aInfo * 10.0) * 1.5) in
  let formFactor := GLSL.smoothstep 0.0 1.0 (uFormState u) in
  let finalPos := GLSL.mix3 chaosPos flowerPos formFactor in
  let vAlpha := 0.5 + 0.5 * cycle (uBloomState u) in
  let vAlpha := vAlpha * (0.6 + 0.4 * formFactor) in
  mkVertexOut finalPos color vAlpha.

End LotusParticles.

(* ================================================================== *)
(** * [App.tsx]: the palette and the swipe handler *)
(* ================================================================== *)

Module App.

(** Light pink, blue, yellow, purple. *)
Definition PALETTE : list string :=
  ["#ffa6c9"; "#0088ff"; "#ffcc00"; "#9900ff"]%string.

(** The updater [handleSwipe] passes to [setActiveColor], for a palette
    [palette] and the value [random] that [Math.random()] returns.  The
    result is [None] when the indexed entry is [undefined]. *)
Definition swipe (palette : list string) (random : R) (prev : string)
  : option string :=
  let available := filter (fun c => negb (String.eqb c prev)) palette in
  let random :=
    JS.index available
             (JS.Math_floor (random * INR (List.length available))) in
  random.

(** [handleSwipe] on the palette of [App]. *)
Definition handleSwipe (random : R) (prev : string) : option string :=
  swipe PALETTE random prev.

Definition initialActiveColor : option string := JS.index PALETTE 0.

End App.

(* ================================================================== *)
(** * The specification's own formulas, for comparison with the code *)
(* ================================================================== *)

Module Spec.

(** Section 4.6: [amount += (target - amount) * min(1, dt * rate)]. *)
Definition smooth (amount target dt rate : R) : R :=
  amount + (target - amount) * Rmin 1 (dt * rate).

(** [new] lies between [old] and [target]: a move toward the target that
    does not pass it. *)
Definition toward (target old new : R) : Prop :=
  (old <= new <= target) \/ (target <= new <= old).

(** Section 8: the amount approaches its target, does not overshoot it and
    stays in [[0,1]]. *)
Definition approaches (target old new : R) : Prop :=
  toward target old new /\ 0 <= new <= 1.

(** Linear interpolation and the cubic smoothstep on [[0,1]], as
    section 4.4 uses them. *)
Definition lerp (a b t : R) : R := a + (b - a) * t.
Definition smoothstep (t : R) : R := 3 * t ^ 2 - 2 * t ^ 3.

(** Euclidean distance of two landmarks. *)
Definition euclid (p q : HandTracker.Landmark) : R :=
  sqrt ((HandTracker.x p - HandTracker.x q) ^ 2 +
        (HandTracker.y p - HandTracker.y q) ^ 2 +
        (HandTracker.z p - HandTracker.z q) ^ 2).

(** The tracked fingers (index, middle, ring, pinky) as pairs of the
    landmark indices of the tip and of the PIP joint. *)
Definition tracked : list (nat * nat) :=
  [(8, 6); (12, 10); (16, 14); (20, 18)]%nat.

(** [exactly_extended landmarks wrist table k]: among the fingers of
    [table], exactly [k] have their tip farther from the wrist than their
    PIP joint. *)
Inductive exactly_extended (landmarks : list HandTracker.Landmark)
          (wrist : HandTracker.Landmark) : list (nat * nat) -> nat -> Prop :=
| ee_none : exactly_extended landmarks wrist [] 0
| ee_extended : forall t p tip pip rest k,
    nth_error landmarks t = Some tip ->
    nth_error landmarks p = Some pip ->
    euclid tip wrist > euclid pip wrist ->
    exactly_extended landmarks wrist rest k ->
    exactly_extended landmarks wrist ((t, p) :: rest) (S k)
| ee_curled : forall t p tip pip rest k,
    nth_error landmarks t = Some tip ->
    nth_error landmarks p = Some pip ->
    ~ euclid tip wrist > euclid pip wrist ->
    exactly_extended landmarks wrist rest k ->
    exactly_extended landmarks wrist ((t, p) :: rest) k.

(** The palette excluding the current colour. *)
Definition others (palette : list string) (prev : string) : list string :=
  filter (fun c => negb (String.eqb c prev)) palette.

(** Section 4.4, step 1: rotation about the lateral axis, rotation about
    the vertical axis, and the petal transform composed of them. *)
Definition rotateX (p : THREE.Vector3) (a : R) : THREE.Vector3 :=
  THREE.vec3 (THREE.vx p)
             (THREE.vy p * cos a - THREE.vz p * sin a)
             (THREE.vy p * sin a + THREE.vz p * cos a).

Definition rotateY (p : THREE.Vector3) (a : R) : THREE.Vector3 :=
  THREE.vec3 (THREE.vx p * cos a - THREE.vz p * sin a)
             (THREE.vy p)
             (THREE.vx p * sin a + THREE.vz p * cos a).

Definition openingAngle (maxOpenAngle bloomAmount : R) : R :=
  lerp (maxOpenAngle * 0.15) maxOpenAngle (smoothstep bloomAmount).

Definition petalTransform (formedPosition : THREE.Vector3)
           (angleAroundCenter maxOpenAngle layerYOffset bloomAmount : R)
  : THREE.Vector3 :=
  let q := rotateY (rotateX formedPosition
                            (openingAngle maxOpenAngle bloomAmount))
                   angleAroundCenter in
  THREE.vec3 (THREE.vx q) (THREE.vy q + layerYOffset - 1.5) (THREE.vz q).

End Spec.

(* ================================================================== *)
(** * Reasoning about the generator: growth of the four arrays *)
(* ================================================================== *)

Module Growth.
Import THREE LotusParticles.

(** The flat array that holds the given triples, [itemSize = 3]. *)
Definition flatten (items : list Vector3) : list R :=
  flat_map (fun v => [vx v; vy v; vz v]) items.

(** From [s0] to [s] exactly [k] particles were appended: the info triples
    [items], each satisfying [P], and three numbers per particle in each of
    the other arrays. *)
Definition grown (P : Vector3 -> Prop) (s0 : GenState) (k : nat)
           (s : GenState) : Prop :=
  exists items : list Vector3,
    List.length items = k /\
    Forall P items /\
    tempInfo s = tempInfo s0 ++ flatten items /\
    List.length (tempPos s) = (List.length (tempPos s0) + 3 * k)%nat /\
    List.length (tempCol s) = (List.length (tempCol s0) + 3 * k)%nat /\
    List.length (tempRand s) = (List.length (tempRand s0) + 3 * k)%nat.

(** The computation [m] appends exactly [k] particles whose info triples
    satisfy [P], from every state. *)
Definition adds {A : Type} (P : Vector3 -> Prop) (m : Gen A) (k : nat)
  : Prop :=
  forall s, grown P s k (snd (m s)).

(** The info triple of a petal particle: its second component is the
    [maxOpenAngle] of one of the layers of the table. *)
Definition PetalInfo (aInfo : Vector3) : Prop :=
  exists layerIdx : nat,
    (layerIdx < List.length layersDef)%nat /\
    vy aInfo = maxOpenAngle (INR layerIdx) (INR (List.length layersDef)).

(** The info triple of an aura particle. *)
Definition AuraInfo (aInfo : Vector3) : Prop := aInfo = vec3 0 (-1.0) 0.

(** Number of petal particles for a given number of points per vein: the
    sum over the layers of petals times veins times points per vein. *)
Definition layerSum (pointsPerVein : Z) : Z :=
  fold_right
    (fun l acc => (Z.of_nat (count l) * Z.of_nat veins * pointsPerVein + acc)%Z)
    0%Z layersDef.

(** [pointsPerVein] as [petal] computes it from the configuration. *)
Definition pointsPerVein (config : LotusConfig) : Z :=
  JS.Math_floor (IZR (particlesPerPetal config) / INR veins).

(** The number of petal particles, as the nested loops produce them. *)
Definition petalParticles (config : LotusConfig) : nat :=
  list_sum
    (map (fun l : Layer =>
            (count l * (veins * (Z.to_nat (pointsPerVein config) * 1)))%nat)
         layersDef).

End Growth.

(* ================================================================== *)
(** * Concrete inputs used in examples *)
(* ================================================================== *)

Module Scenario.
Import LotusParticles.

(** A frame a quarter of a second after start-up, hand open and present. *)
Definition quarterSecondFrame : FrameInput :=
  mkInput initialConfig true true true true 0.25 0.25.

(** A frame that arrives one second after the previous one (a stalled or
    hidden tab), hand open and present. *)
Definition oneSecondFrame : FrameInput :=
  mkInput initialConfig true true true true 1 1.

(** Synthetic hands: the wrist at the origin, a joint [near] at distance
    one and a joint [far] at distance two. *)
Definition origin : HandTracker.Landmark := HandTracker.landmark 0 0 0.
Definition near : HandTracker.Landmark := HandTracker.landmark 1 0 0.
Definition far : HandTracker.Landmark := HandTracker.landmark 2 0 0.

(** Index, middle and ring extended, pinky curled. *)
Definition threeFingerHand : list HandTracker.Landmark :=
  [ origin; near; near; near; near; near;
    near; near; far;                      (* index: PIP 6, tip 8 *)
    near; near; near; far;                (* middle: PIP 10, tip 12 *)
    near; near; near; far;                (* ring: PIP 14, tip 16 *)
    near; far; near; near ].              (* pinky: PIP 18, tip 20 *)

(** Index and middle extended, ring and pinky curled. *)
Definition twoFingerHand : list HandTracker.Landmark :=
  [ origin; near; near; near; near; near;
    near; near; far;
    near; near; near; far;
    near; far; near; near;
    near; far; near; near ].


(** A ready video whose clock shows half a second. *)
Definition readyEnv : HandTracker.Env :=
  HandTracker.mkEnv true (Some (HandTracker.mkVideo 4 0.5)) 1000
                    (Some [threeFingerHand]).

(** A random source that always answers [0], and a colour library that
    ignores the style and the HSL offsets: the properties of the generator
    below hold for every random sequence and every colour library, and the
    examples run it with these. *)
Definition zeroRandom : nat -> R := fun _ => 0.
Definition plainStyle : string -> THREE.Color := fun _ => THREE.rgb 1 1 1.
Definition keepHSL : THREE.Color -> R -> R -> R -> THREE.Color :=
  fun c _ _ _ => c.

(** The initial configuration with the layer count changed from 4 to 6. *)
Definition sixLayerConfig : LotusConfig := mkConfig 80000 6 0.06 0.1 1.5.



End Scenario.

(* ================================================================== *)
(** * The fragment shader *)
(* ================================================================== *)

Module FragmentShader.
Import THREE.

Record vec2 : Type := mkVec2 { px : R; py : R }.

Record vec4 : Type := mkVec4 { cr : R; cg : R; cb : R; ca : R }.

(** GLSL [length] on [vec2]. *)
Definition length2 (v : vec2) : R := sqrt (px v * px v + py v * py v).

(** GLSL [pow(x, y)] for a positive exponent: [exp (y * ln x)] for a
    positive base and zero at zero; the result is undefined for a negative
    base, where the model returns [0]. *)
Definition pow (x y : R) : R := if Rlt_dec 0 x then Rpower x y else 0.

(** [main] of the fragment shader; [None] is [discard]. *)
Definition fragment_main (uBloomIntensity : R) (vColor : Vector3)
           (vAlpha : R) (gl_PointCoord : vec2) : option vec4 :=
  let center := mkVec2 (px gl_PointCoord - 0.5) (py gl_PointCoord - 0.5) in
  let dist := length2 center in
  if JS.gtb dist 0.5 then None
  else
    let strength := 1.0 - dist * 2.0 in
    let strength := pow strength 1.5 in
    let finalColor :=
      vec3 (vx vColor * uBloomIntensity) (vy vColor * uBloomIntensity)
           (vz vColor * uBloomIntensity) in
    Some (mkVec4 (vx finalColor) (vy finalColor) (vz finalColor)
                 (strength * vAlpha)).

End FragmentShader.

(* ================================================================== *)
(** * Runs: several frames, several inference ticks, several swipes *)
(* ================================================================== *)

Module Runs.

(** The frames of [useFrame], in order. *)
Definition runFrames (inps : list LotusParticles.FrameInput)
           (st : LotusParticles.FrameState) : LotusParticles.FrameState :=
  fold_left (fun st inp => LotusParticles.useFrame inp st) inps st.

(** The ticks of the inference loop, in order. *)
Definition runTicks (envs : list HandTracker.Env) (st : HandTracker.State)
  : HandTracker.State :=
  fold_left (fun st env => HandTracker.tick env st) envs st.

(** The updater of [handleSwipe] on the state of [useState]: the active
    colour is a palette entry, or [undefined] ([None]) once an index fell
    outside [available]; [c !== undefined] holds for every string [c]. *)
Definition swipeState (palette : list string) (random : R)
           (active : option string) : option string :=
  match active with
  | Some prev => App.swipe palette random prev
  | None =>
      JS.index palette (JS.Math_floor (random * INR (List.length palette)))
  end.

(** One swipe per random value, in order. *)
Definition runSwipes (palette : list string) (randoms : list R)
           (active : option string) : option string :=
  fold_left (fun a random => swipeState palette random a) randoms active.

(** Sum of the frame times. *)
Definition totalTime (inps : list LotusParticles.FrameInput) : R :=
  fold_right (fun inp acc => LotusParticles.delta inp + acc) 0 inps.

End Runs.

(* ================================================================== *)
(** * Consistency of the signals *)
(* ================================================================== *)

Module Signals.
Import HandTracker.

(** The signals are consistent: the component's [handDetected] mirrors
    hand-present, and hand-open implies hand-present. *)
Definition consistent (st : State) : Prop :=
  handDetected st = isHandPresent st /\
  (isBlooming st = true -> isHandPresent st = true).

End Signals.

(* ================================================================== *)
(** * [UIOverlay.tsx]: the configuration panel *)
(* ================================================================== *)

Module UIOverlay.

(** The keys with which the panel calls [handleChange]: its three range
    inputs.  The integer fields [petalCount] and [layers] have no control. *)
Inductive SliderKey : Type :=
| rotationSpeedKey
| bloomIntensityKey
| particleSizeKey.

(** The updater [prev => ({ ...prev, [key]: value })] of [handleChange]. *)
Definition handleChange (key : SliderKey) (value : R) (prev : LotusConfig)
  : LotusConfig :=
  match key with
  | rotationSpeedKey =>
      mkConfig (petalCount prev) (layers prev) (particleSize prev)
               value (bloomIntensity prev)
  | bloomIntensityKey =>
      mkConfig (petalCount prev) (layers prev) (particleSize prev)
               (rotationSpeed prev) value
  | particleSizeKey =>
      mkConfig (petalCount prev) (layers prev) value
               (rotationSpeed prev) (bloomIntensity prev)
  end.

(** [config[key]]. *)
Definition read (key : SliderKey) (config : LotusConfig) : R :=
  match key with
  | rotationSpeedKey => rotationSpeed config
  | bloomIntensityKey => bloomIntensity config
  | particleSizeKey => particleSize config
  end.

End UIOverlay.

(* ================================================================== *)
(** * [HandTracker.tsx]: start-up of the model and the camera *)
(* ================================================================== *)

Module Lifecycle.

(** How the awaited promises of [setupMediaPipe] and [startWebcam] settle,
    and whether the component is still mounted when each one resumes. *)
Record SetupEnv : Type := mkSetup {
  visionResolves : bool;
  mountedAfterVision : bool;
  landmarkerResolves : bool;
  mountedAfterLandmarker : bool;
  cameraResolves : bool;
  videoMounted : bool
}.

(** The state the start-up writes: [loading], [error], whether
    [landmarkerRef.current] is set, whether the stream is attached to the
    video element and whether the [loadeddata] listener (which calls
    [predict]) is registered. *)
Record Component : Type := mkComponent {
  loading : bool;
  error : option string;
  landmarkerStored : bool;
  streamAttached : bool;
  listening : bool
}.

Definition initialComponent : Component :=
  mkComponent true None false false false.

(** The [catch] blocks: [setError(message); setLoading(false)]. *)
Definition fail (message : string) (c : Component) : Component :=
  mkComponent false (Some message) (landmarkerStored c) (streamAttached c)
              (listening c).

(** [startWebcam]. *)
Definition startWebcam (env : SetupEnv) (c : Component) : Component :=
  if cameraResolves env then
    if videoMounted env then
      mkComponent (loading c) (error c) (landmarkerStored c) true true
    else c
  else fail "Camera access denied" c.

(** [setupMediaPipe]. *)
Definition setupMediaPipe (env : SetupEnv) (c : Component) : Component :=
  if visionResolves env then
    if negb (mountedAfterVision env) then c
    else if landmarkerResolves env then
      if negb (mountedAfterLandmarker env) then c
      else
        let c := mkComponent (loading c) (error c) true (streamAttached c)
                             (listening c) in
        startWebcam env c
    else fail "Failed to load AI model" c
  else fail "Failed to load AI model" c.

(** The [loadeddata] event: the listener, if registered, clears [loading]
    and makes the first call of [predict]; the boolean tells whether
    [predict] was called. *)
Definition loadeddata (c : Component) : Component * bool :=
  if listening c then
    (mkComponent false (error c) (landmarkerStored c) (streamAttached c)
                 (listening c), true)
  else (c, false).

End Lifecycle.

(* ================================================================== *)
(** * Reasoning about the generator: the particles one by one *)
(* ================================================================== *)

Module Particles.
Import THREE LotusParticles Growth.

(** One particle: its triple in each of the four arrays. *)
Record Particle : Type := mkParticle {
  p_pos : Vector3;
  p_col : Vector3;
  p_info : Vector3;
  p_rand : Vector3
}.

(** Particle [k] of a geometry. *)
Definition particleAt (geometry : Geometry) (k : nat) : option Particle :=
  match attribute (positions geometry) k, attribute (colors geometry) k,
        attribute (infos geometry) k, attribute (randoms geometry) k with
  | Some a, Some b, Some c, Some d => Some (mkParticle a b c d)
  | _, _, _, _ => None
  end.

(** From [s0] to [s] exactly the particles [items] were appended, each
    satisfying [P], and [draws] random values were consumed per particle. *)
Definition extended (P : Particle -> Prop) (draws : nat) (s0 : GenState)
           (k : nat) (s : GenState) : Prop :=
  exists items : list Particle,
    List.length items = k /\
    Forall P items /\
    tempPos s = tempPos s0 ++ flatten (map p_pos items) /\
    tempCol s = tempCol s0 ++ flatten (map p_col items) /\
    tempInfo s = tempInfo s0 ++ flatten (map p_info items) /\
    tempRand s = tempRand s0 ++ flatten (map p_rand items) /\
    drawn s = (drawn s0 + draws * k)%nat.

Definition extends {A : Type} (P : Particle -> Prop) (draws : nat)
           (m : Gen A) (k : nat) : Prop :=
  forall s, extended P draws s k (snd (m s)).

(** The five tones of [useMemo], in the order [colDeep], [colMain],
    [colLight], [colTip], [colGold]. *)
Record Tones : Type := mkTones {
  colDeep : Color;
  colMain : Color;
  colLight : Color;
  colTip : Color;
  colGold : Color
}.

Definition tones (Color_ofStyle : string -> Color)
           (Color_offsetHSL : Color -> R -> R -> R -> Color)
           (activeColor : string) : Tones :=
  let baseCol := Color_ofStyle activeColor in
  mkTones (Color_offsetHSL baseCol 0 0 (-0.4))
          baseCol
          (Color_offsetHSL baseCol 0 (-0.2) 0.3)
          (Color_ofStyle "#ffffff"%string)
          (Color_ofStyle "#ffaa00"%string).

(** A particle of petal [p] of layer [layerIdx]: a point of the petal
    surface at some [u], [v] in [[0,1]], the metadata of its petal, the
    mixed colour, and a chaos position drawn from three consecutive random
    values. *)
Definition PetalParticle (random_seq : nat -> R) (t : Tones) (q : Particle)
  : Prop :=
  exists (layerIdx p n : nat) (layer : Layer) (u v : R),
    p_pos q = fst (calculatePetalShape u v (INR layerIdx)
                                       (INR (List.length layersDef))) /\
    p_info q =
      vec3 (INR p * ((JS.Math_PI * 2) / INR (count layer)) + offset layer)
           (snd (calculatePetalShape u v (INR layerIdx)
                                     (INR (List.length layersDef))))
           (- (INR layerIdx * 0.25)) /\
    p_col q =
      (let c := mixColor (colDeep t) (colMain t) (colLight t) (colTip t)
                         (colGold t) layerIdx u v in
       vec3 (r c) (g c) (b c)) /\
    p_rand q = vec3 ((random_seq (S (S n)) - 0.5) * 30)
                    ((random_seq (S (S (S n))) - 0.5) * 20)
                    ((random_seq (S (S (S (S n)))) - 0.5) * 20) /\
    nth_error layersDef layerIdx = Some layer /\
    (p < count layer)%nat /\
    0 <= u <= 1 /\
    0 <= v <= 1.

(** An aura particle, from seven consecutive random values. *)
Definition AuraParticle (random_seq : nat -> R) (t : Tones) (q : Particle)
  : Prop :=
  exists n : nat,
    p_pos q =
      (let radius := 2 + random_seq n * 8 in
       let theta := random_seq (S n) * JS.Math_PI * 2 in
       vec3 (radius * JS.Math_cos theta)
            ((random_seq (S (S n)) - 0.5) * 10)
            (radius * JS.Math_sin theta)) /\
    p_info q = vec3 0 (-1.0) 0 /\
    p_rand q = vec3 ((random_seq (S (S (S n))) - 0.5) * 40)
                    ((random_seq (S (S (S (S n)))) - 0.5) * 30)
                    ((random_seq (S (S (S (S (S n))))) - 0.5) * 40) /\
    p_col q =
      (let auraCol :=
         if JS.gtb (random_seq (S (S (S (S (S (S n))))))) 0.5
         then colLight t else colMain t in
       vec3 (r auraCol * 0.6) (g auraCol * 0.6) (b auraCol * 0.6)).

End Particles.

(* ================================================================== *)
(** * Colour ranges *)
(* ================================================================== *)

Module ColorRange.
Import THREE.

(** Every channel of [c] lies in [[lo, hi]]. *)
Definition within (lo hi : R) (c : Color) : Prop :=
  lo <= r c <= hi /\ lo <= g c <= hi /\ lo <= b c <= hi.

End ColorRange.

(* ================================================================== *)
(** * Properties *)
(* ================================================================== *)

(** ** The state smoother *)

Section Smoother.
Import LotusParticles Scenario.

Lemma lerp_as_increment (x y t : R) :
  THREE.lerp x y t = x + (y - x) * t.
Proof. unfold THREE.lerp. ring. Qed.

Lemma targetBloom_cast (inp : FrameInput) :
  targetBloom inp = if isBlooming inp then 1 else 0.
Proof. unfold targetBloom. destruct (isBlooming inp); lra. Qed.

Lemma targetForm_cast (inp : FrameInput) :
  targetForm inp = if isHandPresent inp then 1 else 0.
Proof. unfold targetForm. destruct (isHandPresent inp); lra. Qed.

Lemma useFrame_bloom (inp : FrameInput) (st : FrameState) :
  currentBloomRef (useFrame inp st) =
  THREE.lerp (currentBloomRef st) (targetBloom inp) (delta inp * 2.0).
Proof. reflexivity. Qed.

Lemma useFrame_form (inp : FrameInput) (st : FrameState) :
  currentFormRef (useFrame inp st) =
  THREE.lerp (currentFormRef st) (targetForm inp) (delta inp * 1.5).
Proof. reflexivity. Qed.

(** A step of [lerp] with a factor in [[0,1]] stays between the old value
    and the target. *)
Lemma lerp_toward (x y t : R) :
  0 <= t <= 1 -> Spec.toward y x (THREE.lerp x y t).
Proof.
  intros [Ht0 Ht1]. rewrite lerp_as_increment. unfold Spec.toward.
  destruct (Rle_or_lt x y) as [Hxy | Hxy]; [left | right]; split; nra.
Qed.

Lemma lerp_approaches (x y t : R) :
  0 <= x <= 1 -> 0 <= y <= 1 -> 0 <= t <= 1 ->
  Spec.approaches y x (THREE.lerp x y t).
Proof.
  intros Hx Hy Ht. split; [now apply lerp_toward |].
  destruct (lerp_toward x y Ht) as [H | H]; lra.
Qed.

(** With a factor above one the step passes the target. *)
Lemma lerp_overshoots (x y t : R) :
  1 < t -> x <> y -> ~ Spec.toward y x (THREE.lerp x y t).
Proof.
  intros Ht Hxy [H | H]; rewrite lerp_as_increment in H; nra.
Qed.

Lemma target_in_unit (bit : bool) : 0 <= (if bit then 1.0 else 0.0) <= 1.
Proof. destruct bit; lra. Qed.

(** While the factor [delta * rate] is at most one the frame behaves as
    intended: from amounts in [[0,1]] and a non-negative [delta], it moves
    the bloom amount toward its target without passing it and keeps it in
    [[0,1]] when [delta * 2.0 <= 1], and likewise the form amount when
    [delta * 1.5 <= 1]. *)
Lemma smoother_approaches_target (inp : FrameInput) (st : FrameState) :
  0 <= currentBloomRef st <= 1 ->
  0 <= currentFormRef st <= 1 ->
  0 <= delta inp ->
  (delta inp * 2.0 <= 1 ->
   Spec.approaches (targetBloom inp) (currentBloomRef st)
                   (currentBloomRef (useFrame inp st))) /\
  (delta inp * 1.5 <= 1 ->
   Spec.approaches (targetForm inp) (currentFormRef st)
                   (currentFormRef (useFrame inp st))).
Proof.
  intros Hb Hf Hd. split; intros Hrate.
  - rewrite useFrame_bloom. apply lerp_approaches; try assumption.
    + apply target_in_unit.
    + lra.
  - rewrite useFrame_form. apply lerp_approaches; try assumption.
    + apply target_in_unit.
    + lra.
Qed.

Lemma smoother_approaches_target_witness :
  Spec.approaches (targetBloom quarterSecondFrame)
                  (currentBloomRef initialFrame)
                  (currentBloomRef (useFrame quarterSecondFrame initialFrame)) /\
  Spec.approaches (targetForm quarterSecondFrame)
                  (currentFormRef initialFrame)
                  (currentFormRef (useFrame quarterSecondFrame initialFrame)).
Proof.
  assert (Hb : 0 <= currentBloomRef initialFrame <= 1) by (simpl; lra).
  assert (Hf : 0 <= currentFormRef initialFrame <= 1) by (simpl; lra).
  assert (Hd : 0 <= delta quarterSecondFrame) by (simpl; lra).
  destruct (smoother_approaches_target quarterSecondFrame initialFrame
              Hb Hf Hd) as [H2 H15].
  split; [apply H2 | apply H15]; simpl; lra.
Defined.

(** C1, where the code departs from it.  The frame that arrives one second
    after start-up, with the hand open and present, starts from amounts in
    [[0,1]] with a non-negative [delta] and leaves the bloom amount at [2]
    and the form amount at [1.5]: both pass their target [1] and leave
    [[0,1]], and these values are written to the uniforms [uBloomState] and
    [uFormState], which the shader source documents as ranging from 0 to 1.
    The interpolation factor [delta * rate] is handed to [lerp] without a
    clamp. *)
Theorem smoother_overshoots_unit_interval :
  0 <= currentBloomRef initialFrame <= 1 /\
  0 <= currentFormRef initialFrame <= 1 /\
  0 <= delta oneSecondFrame /\
  targetBloom oneSecondFrame = 1 /\
  targetForm oneSecondFrame = 1 /\
  currentBloomRef (useFrame oneSecondFrame initialFrame) = 2 /\
  currentFormRef (useFrame oneSecondFrame initialFrame) = 1.5 /\
  uBloomState (uniforms (useFrame oneSecondFrame initialFrame)) = 2 /\
  uFormState (uniforms (useFrame oneSecondFrame initialFrame)) = 1.5 /\
  ~ Spec.approaches (targetBloom oneSecondFrame)
                    (currentBloomRef initialFrame)
                    (currentBloomRef (useFrame oneSecondFrame initialFrame)) /\
  ~ Spec.approaches (targetForm oneSecondFrame)
                    (currentFormRef initialFrame)
                    (currentFormRef (useFrame oneSecondFrame initialFrame)).
Proof.
  unfold Spec.approaches, Spec.toward.
  cbn [useFrame oneSecondFrame initialFrame currentBloomRef currentFormRef
       delta isBlooming isHandPresent shaderRef uniforms uBloomState
       uFormState targetBloom targetForm].
  unfold THREE.lerp.
  repeat split; try lra; intros [_ H]; lra.
Qed.

(** What one frame computes: the bloom amount becomes
    [bloom + (target_bloom - bloom) * (delta * 2.0)] and the form amount
    [form + (target_form - form) * (delta * 1.5)], the targets being the
    two booleans cast to 0/1; this is the formula of section 4.6, with its
    [min(1, .)], whenever the factor is at most one. *)
Lemma smoother_update_formula (inp : FrameInput) (st : FrameState) :
  let st' := useFrame inp st in
  currentBloomRef st' =
    currentBloomRef st +
    (targetBloom inp - currentBloomRef st) * (delta inp * 2.0) /\
  currentFormRef st' =
    currentFormRef st +
    (targetForm inp - currentFormRef st) * (delta inp * 1.5) /\
  targetBloom inp = (if isBlooming inp then 1 else 0) /\
  targetForm inp = (if isHandPresent inp then 1 else 0) /\
  (delta inp * 2.0 <= 1 ->
   currentBloomRef st' =
     Spec.smooth (currentBloomRef st) (targetBloom inp) (delta inp) 2.0) /\
  (delta inp * 1.5 <= 1 ->
   currentFormRef st' =
     Spec.smooth (currentFormRef st) (targetForm inp) (delta inp) 1.5).
Proof.
  cbv zeta. rewrite useFrame_bloom, useFrame_form, !lerp_as_increment.
  repeat split.
  - apply targetBloom_cast.
  - apply targetForm_cast.
  - intros H. unfold Spec.smooth. rewrite Rmin_right by lra. reflexivity.
  - intros H. unfold Spec.smooth. rewrite Rmin_right by lra. reflexivity.
Qed.

Lemma smoother_update_formula_witness :
  currentBloomRef (useFrame quarterSecondFrame initialFrame) =
    Spec.smooth (currentBloomRef initialFrame)
                (targetBloom quarterSecondFrame)
                (delta quarterSecondFrame) 2.0 /\
  currentFormRef (useFrame quarterSecondFrame initialFrame) =
    Spec.smooth (currentFormRef initialFrame)
                (targetForm quarterSecondFrame)
                (delta quarterSecondFrame) 1.5.
Proof.
  destruct (smoother_update_formula quarterSecondFrame initialFrame)
    as (_ & _ & _ & _ & H2 & H15).
  split; [apply H2 | apply H15]; simpl; lra.
Defined.

(** C2, where the code departs from it.  On the frame that arrives one
    second after start-up, with the hand open and present, the formula
    [amount += (target - amount) * min(1, delta * rate)] gives [1] for both
    amounts, and the code gives [2] for the bloom amount and [1.5] for the
    form amount: the factor [delta * rate] is not cut off at one. *)
Theorem smoother_differs_from_clamped_formula :
  currentBloomRef (useFrame oneSecondFrame initialFrame) = 2 /\
  Spec.smooth (currentBloomRef initialFrame) (targetBloom oneSecondFrame)
              (delta oneSecondFrame) 2.0 = 1 /\
  currentFormRef (useFrame oneSecondFrame initialFrame) = 1.5 /\
  Spec.smooth (currentFormRef initialFrame) (targetForm oneSecondFrame)
              (delta oneSecondFrame) 1.5 = 1 /\
  currentBloomRef (useFrame oneSecondFrame initialFrame) <>
  Spec.smooth (currentBloomRef initialFrame) (targetBloom oneSecondFrame)
              (delta oneSecondFrame) 2.0 /\
  currentFormRef (useFrame oneSecondFrame initialFrame) <>
  Spec.smooth (currentFormRef initialFrame) (targetForm oneSecondFrame)
              (delta oneSecondFrame) 1.5.
Proof.
  assert (Hcode : currentBloomRef (useFrame oneSecondFrame initialFrame) = 2).
  { cbn [useFrame oneSecondFrame initialFrame currentBloomRef delta
         isBlooming targetBloom]. unfold THREE.lerp. lra. }
  assert (Hspec : Spec.smooth (currentBloomRef initialFrame)
                    (targetBloom oneSecondFrame)
                    (delta oneSecondFrame) 2.0 = 1).
  { cbn [oneSecondFrame initialFrame currentBloomRef delta isBlooming
         targetBloom]. unfold Spec.smooth.
    rewrite Rmin_left by lra. lra. }
  assert (Hcode' : currentFormRef (useFrame oneSecondFrame initialFrame) = 1.5).
  { cbn [useFrame oneSecondFrame initialFrame currentFormRef delta
         isHandPresent targetForm]. unfold THREE.lerp. lra. }
  assert (Hspec' : Spec.smooth (currentFormRef initialFrame)
                     (targetForm oneSecondFrame)
                     (delta oneSecondFrame) 1.5 = 1).
  { cbn [oneSecondFrame initialFrame currentFormRef delta isHandPresent
         targetForm]. unfold Spec.smooth.
    rewrite Rmin_left by lra. lra. }
  rewrite Hcode, Hspec, Hcode', Hspec'. repeat split; lra.
Qed.

End Smoother.

(** ** JavaScript arithmetic *)

Section JSFacts.

Lemma ltb_true (x y : R) : JS.ltb x y = true <-> x < y.
Proof. unfold JS.ltb. destruct (Rlt_dec x y); split; intros; easy. Qed.

Lemma ltb_false (x y : R) : JS.ltb x y = false <-> ~ x < y.
Proof. unfold JS.ltb. destruct (Rlt_dec x y); split; intros; easy. Qed.

Lemma gtb_true (x y : R) : JS.gtb x y = true <-> x > y.
Proof. unfold JS.gtb. apply ltb_true. Qed.

Lemma gtb_false (x y : R) : JS.gtb x y = false <-> ~ x > y.
Proof. unfold JS.gtb. apply ltb_false. Qed.

Lemma neqb_true (x y : R) : JS.neqb x y = true <-> x <> y.
Proof. unfold JS.neqb. destruct (Req_dec_T x y); split; intros; easy. Qed.

Lemma neqb_false (x y : R) : JS.neqb x y = false <-> x = y.
Proof. unfold JS.neqb. destruct (Req_dec_T x y); split; intros; easy. Qed.

Lemma is_integer_IZR (n : Z) : JS.is_integer (IZR n) = true.
Proof.
  unfold JS.is_integer. rewrite ZfloorZ.
  destruct (Req_dec_T (IZR n) (IZR n)); congruence.
Qed.

Lemma Math_pow_integer (x : R) (n : Z) :
  JS.Math_pow x (IZR n) = powerRZ x n.
Proof. unfold JS.Math_pow. now rewrite is_integer_IZR, ZfloorZ. Qed.

Lemma Math_pow_2 (x : R) : JS.Math_pow x 2 = x ^ 2.
Proof. rewrite Math_pow_integer. reflexivity. Qed.

Lemma Math_pow_3 (x : R) : JS.Math_pow x 3 = x ^ 3.
Proof. rewrite Math_pow_integer. reflexivity. Qed.

Lemma Zfloor_one_and_half : Zfloor 1.5 = 1%Z.
Proof. apply Zfloor_eq. lra. Qed.

Lemma is_integer_one_and_half : JS.is_integer 1.5 = false.
Proof.
  unfold JS.is_integer. rewrite Zfloor_one_and_half.
  destruct (Req_dec_T 1.5 1); [lra | reflexivity].
Qed.

(** [Math.pow(x, 1.5)]: zero at zero, [exp (1.5 * ln x)] above. *)
Lemma Math_pow_15_zero : JS.Math_pow 0 1.5 = 0.
Proof.
  unfold JS.Math_pow. rewrite is_integer_one_and_half.
  destruct (Rlt_dec 0 0); [lra | reflexivity].
Qed.

Lemma Math_pow_15_pos (x : R) : 0 < x -> JS.Math_pow x 1.5 = Rpower x 1.5.
Proof.
  intros Hx. unfold JS.Math_pow. rewrite is_integer_one_and_half.
  destruct (Rlt_dec 0 x); [reflexivity | lra].
Qed.

Lemma Math_pow_15_nonneg (x : R) : 0 <= JS.Math_pow x 1.5.
Proof.
  unfold JS.Math_pow. rewrite is_integer_one_and_half.
  destruct (Rlt_dec 0 x); [| lra].
  unfold Rpower. left. apply exp_pos.
Qed.

Lemma Math_pow_15_monotone (x y : R) :
  0 <= x <= y -> JS.Math_pow x 1.5 <= JS.Math_pow y 1.5.
Proof.
  intros [Hx Hxy]. destruct (Rle_lt_or_eq_dec 0 x Hx) as [Hpos | <-].
  - rewrite !Math_pow_15_pos by lra. apply Rle_Rpower_l; lra.
  - rewrite Math_pow_15_zero. apply Math_pow_15_nonneg.
Qed.

(** [Math.floor] of a quotient of integers is the integer quotient. *)
Lemma Math_floor_div (a b : Z) :
  (0 < b)%Z -> JS.Math_floor (IZR a / IZR b) = (a / b)%Z.
Proof.
  intros Hb. unfold JS.Math_floor. apply Zfloor_eq.
  assert (HbR : 0 < IZR b) by now apply IZR_lt.
  pose proof (Z.div_mod a b ltac:(lia)) as Hdm.
  pose proof (Z.mod_pos_bound a b Hb) as [Hm0 Hm1].
  assert (HaR : IZR a = IZR b * IZR (a / b) + IZR (a mod b)).
  { rewrite <- mult_IZR, <- plus_IZR. now f_equal. }
  apply IZR_le in Hm0. apply IZR_lt in Hm1.
  split.
  - apply Rmult_le_reg_l with (IZR b); [assumption |].
    replace (IZR b * (IZR a / IZR b)) with (IZR a) by (field; lra). lra.
  - apply Rmult_lt_reg_l with (IZR b); [assumption |].
    replace (IZR b * (IZR a / IZR b)) with (IZR a) by (field; lra). lra.
Qed.

End JSFacts.

(** ** The gesture classifier *)

Section Classifier.
Import HandTracker Scenario.

Lemma dist_euclid (p q : Landmark) : dist p q = Spec.euclid p q.
Proof. unfold dist, Spec.euclid, JS.Math_sqrt. now rewrite !Math_pow_2. Qed.

Lemma euclid_sym (p q : Landmark) : Spec.euclid p q = Spec.euclid q p.
Proof. unfold Spec.euclid. f_equal. ring. Qed.

(** The test of the loop body is the comparison of the two Euclidean
    distances to the wrist. *)
Lemma extended_test (wrist tip pip : Landmark) :
  JS.gtb (dist wrist tip) (dist wrist pip) = true <->
  Spec.euclid tip wrist > Spec.euclid pip wrist.
Proof.
  rewrite gtb_true, !dist_euclid.
  now rewrite (euclid_sym wrist tip), (euclid_sym wrist pip).
Qed.

Lemma extended_test_true (wrist tip pip : Landmark) :
  Spec.euclid tip wrist > Spec.euclid pip wrist ->
  JS.gtb (dist wrist tip) (dist wrist pip) = true.
Proof. apply extended_test. Qed.

Lemma extended_test_false (wrist tip pip : Landmark) :
  ~ Spec.euclid tip wrist > Spec.euclid pip wrist ->
  JS.gtb (dist wrist tip) (dist wrist pip) = false.
Proof.
  intros H. destruct (JS.gtb _ _) eqn:E; [| reflexivity].
  apply extended_test in E. contradiction.
Qed.

(** One iteration of the loop on a finger whose joints are present. *)
Lemma count_loop_step (landmarks : list Landmark) (wrist tip pip : Landmark)
      (i n acc t p : nat) :
  nth_error fingers i = Some t ->
  nth_error pips i = Some p ->
  nth_error landmarks t = Some tip ->
  nth_error landmarks p = Some pip ->
  count_loop landmarks (Some wrist) i (S n) acc =
  count_loop landmarks (Some wrist) (S i) n
    (if JS.gtb (dist wrist tip) (dist wrist pip) then S acc else acc).
Proof.
  intros Hf Hp Ht Hq. simpl. unfold joint. now rewrite Hf, Hp, Ht, Hq.
Qed.

(** The loop started at finger [i] counts the extended fingers of the
    rest of the table. *)
Lemma count_loop_exact (landmarks : list Landmark) (wrist : Landmark) :
  forall (table : list (nat * nat)) (k : nat),
    Spec.exactly_extended landmarks wrist table k ->
    forall i acc,
      (forall j t p, nth_error table j = Some (t, p) ->
                     nth_error fingers (i + j) = Some t /\
                     nth_error pips (i + j) = Some p) ->
      count_loop landmarks (Some wrist) i (List.length table) acc =
      Some (acc + k)%nat.
Proof.
  induction 1 as [| t p tip pip rest k Ht Hp Hgt _ IH
                  | t p tip pip rest k Ht Hp Hle _ IH];
    intros i acc Htab.
  - simpl. f_equal. lia.
  - destruct (Htab 0%nat t p eq_refl) as [Hf Hq].
    rewrite Nat.add_0_r in Hf, Hq.
    cbn [List.length].
    rewrite (@count_loop_step landmarks wrist tip pip i (List.length rest) acc
                               t p Hf Hq Ht Hp).
    rewrite extended_test_true by assumption.
    rewrite IH.
    + f_equal. lia.
    + intros j t' p' Hj. rewrite Nat.add_succ_comm. now apply (Htab (S j)).
  - destruct (Htab 0%nat t p eq_refl) as [Hf Hq].
    rewrite Nat.add_0_r in Hf, Hq.
    cbn [List.length].
    rewrite (@count_loop_step landmarks wrist tip pip i (List.length rest) acc
                               t p Hf Hq Ht Hp).
    rewrite extended_test_false by assumption.
    rewrite IH.
    + reflexivity.
    + intros j t' p' Hj. rewrite Nat.add_succ_comm. now apply (Htab (S j)).
Qed.

Lemma tracked_tables (j t p : nat) :
  nth_error Spec.tracked j = Some (t, p) ->
  nth_error fingers (0 + j) = Some t /\ nth_error pips (0 + j) = Some p.
Proof.
  do 4 (destruct j as [| j]; [intros [= <- <-]; now split |]).
  simpl. destruct j; discriminate.
Qed.

Lemma extendedCount_exact (landmarks : list Landmark) (wrist : Landmark)
      (k : nat) :
  nth_error landmarks 0 = Some wrist ->
  Spec.exactly_extended landmarks wrist Spec.tracked k ->
  extendedCount landmarks = Some k.
Proof.
  intros Hw Hk. unfold extendedCount. rewrite Hw.
  exact (count_loop_exact Hk 0%nat 0%nat tracked_tables).
Qed.

(** What [predict] emits on a fresh frame on which a hand is detected and
    classified. *)
Lemma predict_hand_events (env : Env) (last : R) (v : Video)
      (landmarks : list Landmark) (rest : list (list Landmark))
      (open : bool) :
  videoRef env = Some v ->
  ready env = true ->
  currentTime v <> last ->
  detected env = Some (landmarks :: rest) ->
  isHandOpen landmarks = Some open ->
  events (predict env last) =
    [ DetectForVideo (currentTime v) (Date_now env);
      SetHandDetected true; PresenceChange true;
      BloomChange open; RequestAnimationFrame ].
Proof.
  intros Hv Hr Ht Hd Ho. unfold ready in Hr. unfold predict.
  rewrite Hv in *. rewrite Hr.
  apply neqb_true in Ht. rewrite Ht, Hd, Ho. reflexivity.
Qed.

(** C4.  If the tip is farther from the wrist than the PIP joint for
    exactly [k] of the four tracked fingers, the classifier computes
    hand-open [= (3 <= k)]: true iff [k >= 3], in particular true for
    [k = 3] and false for [k = 2]; and on a fresh frame showing these
    landmarks [predict] emits exactly this value through
    [onBloomChange]. *)
Theorem classifier_open_iff_three_extended
        (landmarks : list Landmark) (wrist : Landmark) (k : nat) :
  nth_error landmarks 0 = Some wrist ->
  Spec.exactly_extended landmarks wrist Spec.tracked k ->
  isHandOpen landmarks = Some (3 <=? k)%nat /\
  (isHandOpen landmarks = Some true <-> (3 <= k)%nat) /\
  (k = 3%nat -> isHandOpen landmarks = Some true) /\
  (k = 2%nat -> isHandOpen landmarks = Some false) /\
  (forall env last v rest,
      videoRef env = Some v ->
      ready env = true ->
      currentTime v <> last ->
      detected env = Some (landmarks :: rest) ->
      events (predict env last) =
        [ DetectForVideo (currentTime v) (Date_now env);
          SetHandDetected true; PresenceChange true;
          BloomChange (3 <=? k)%nat; RequestAnimationFrame ]).
Proof.
  intros Hw Hk.
  assert (Hopen : isHandOpen landmarks = Some (3 <=? k)%nat).
  { unfold isHandOpen. now rewrite (extendedCount_exact Hw Hk). }
  split; [exact Hopen |]. rewrite Hopen. repeat split.
  - intros [= H]. now apply Nat.leb_le.
  - intros H. f_equal. now apply Nat.leb_le.
  - intros ->. reflexivity.
  - intros ->. reflexivity.
  - intros env last v rest Hv Hr Ht Hd.
    exact (predict_hand_events env Hv Hr Ht Hd Hopen).
Qed.

Lemma far_beyond_near : Spec.euclid far origin > Spec.euclid near origin.
Proof.
  unfold Spec.euclid, far, near, origin; simpl.
  apply sqrt_lt_1_alt. lra.
Qed.

Lemma near_not_beyond_far :
  ~ Spec.euclid near origin > Spec.euclid far origin.
Proof. pose proof far_beyond_near. lra. Qed.

Lemma threeFingerHand_extended :
  Spec.exactly_extended threeFingerHand origin Spec.tracked 3.
Proof.
  unfold Spec.tracked.
  eapply Spec.ee_extended;
    [reflexivity | reflexivity | exact far_beyond_near |].
  eapply Spec.ee_extended;
    [reflexivity | reflexivity | exact far_beyond_near |].
  eapply Spec.ee_extended;
    [reflexivity | reflexivity | exact far_beyond_near |].
  eapply Spec.ee_curled;
    [reflexivity | reflexivity | exact near_not_beyond_far |].
  constructor.
Qed.

Lemma twoFingerHand_extended :
  Spec.exactly_extended twoFingerHand origin Spec.tracked 2.
Proof.
  unfold Spec.tracked.
  eapply Spec.ee_extended;
    [reflexivity | reflexivity | exact far_beyond_near |].
  eapply Spec.ee_extended;
    [reflexivity | reflexivity | exact far_beyond_near |].
  eapply Spec.ee_curled;
    [reflexivity | reflexivity | exact near_not_beyond_far |].
  eapply Spec.ee_curled;
    [reflexivity | reflexivity | exact near_not_beyond_far |].
  constructor.
Qed.

Lemma classifier_open_iff_three_extended_witness :
  isHandOpen threeFingerHand = Some true /\
  isHandOpen twoFingerHand = Some false /\
  events (predict readyEnv (-1)) =
    [ DetectForVideo 0.5 1000; SetHandDetected true; PresenceChange true;
      BloomChange true; RequestAnimationFrame ].
Proof.
  destruct (classifier_open_iff_three_extended
              (landmarks := threeFingerHand) (wrist := origin) (k := 3)
              eq_refl threeFingerHand_extended)
    as (_ & _ & H3 & _ & Hev).
  destruct (classifier_open_iff_three_extended
              (landmarks := twoFingerHand) (wrist := origin) (k := 2)
              eq_refl twoFingerHand_extended)
    as (_ & _ & _ & H2 & _).
  split; [exact (H3 eq_refl) |]. split; [exact (H2 eq_refl) |].
  refine (Hev readyEnv (-1) (mkVideo 4 0.5) [] eq_refl eq_refl _ eq_refl).
  simpl. lra.
Defined.

End Classifier.

(** ** The inference loop *)

Section InferenceLoop.
Import HandTracker Scenario.

Lemma ready_guard (env : Env) (v : Video) :
  videoRef env = Some v ->
  ready env = landmarkerRef env && (2 <=? readyState v)%Z.
Proof. intros Hv. unfold ready. now rewrite Hv. Qed.

(** A call of [predict] that does not pass the guard, or sees the recorded
    timestamp again, only re-arms the animation frame. *)
Lemma predict_idle (env : Env) (last : R) :
  ready env = false \/
  (exists v, videoRef env = Some v /\ currentTime v = last) ->
  predict env last = mkOutcome last [RequestAnimationFrame] false.
Proof.
  unfold ready, predict. intros [Hr | (v & Hv & Ht)].
  - destruct (videoRef env) as [v |]; [| reflexivity].
    now rewrite Hr.
  - rewrite Hv. apply neqb_false in Ht. rewrite Ht.
    now destruct (landmarkerRef env && (2 <=? readyState v)%Z).
Qed.


Lemma tick_idle (env : Env) (st : State) :
  ready env = false \/
  (exists v, videoRef env = Some v /\ currentTime v = lastVideoTimeRef st) ->
  tick env st = st /\ detector_invoked env st = false.
Proof.
  intros H. unfold tick, detector_invoked.
  rewrite (predict_idle env H). simpl. now destruct st.
Qed.


End InferenceLoop.

(** ** The swipe handler *)

Section Swipe.
Import App Spec.

Lemma others_In (palette : list string) (prev c : string) :
  In c (others palette prev) <-> In c palette /\ c <> prev.
Proof.
  unfold others. rewrite filter_In, negb_true_iff.
  now rewrite <- String.eqb_neq.
Qed.

Lemma others_absent (palette : list string) (prev : string) :
  ~ In prev palette -> others palette prev = palette.
Proof.
  unfold others. induction palette as [| c rest IH]; intros Hn; simpl.
  - reflexivity.
  - destruct (String.eqb_spec c prev) as [-> | Hne]; simpl.
    + exfalso. apply Hn. now left.
    + f_equal. apply IH. intros H. apply Hn. now right.
Qed.

(** In a palette without repetition, removing the current colour removes
    exactly one entry. *)
Lemma others_length (palette : list string) (prev : string) :
  NoDup palette -> In prev palette ->
  S (List.length (others palette prev)) = List.length palette.
Proof.
  induction 1 as [| c rest Hnotin Hnd IH]; intros Hin; [easy |].
  unfold others in *. simpl.
  destruct (String.eqb_spec c prev) as [-> | Hne]; simpl.
  - f_equal. change (filter _ rest) with (others rest prev).
    now rewrite others_absent.
  - f_equal. apply IH. destruct Hin; [contradiction | assumption].
Qed.

Lemma others_NoDup (palette : list string) (prev : string) :
  NoDup palette -> NoDup (others palette prev).
Proof. apply NoDup_filter. Qed.

(** [swipe] never yields the current colour, whatever the palette. *)
Lemma swipe_not_prev (palette : list string) (random : R) (prev : string) :
  swipe palette random prev <> Some prev.
Proof.
  unfold swipe, JS.index. fold (others palette prev).
  destruct (_ <? 0)%Z; [discriminate |].
  intros H. apply nth_error_In, others_In in H. now destruct H.
Qed.

(** The index [Math.floor(random * n)] is [i] exactly on the [i]-th of the
    [n] equal parts of [[0,1)]. *)
Lemma floor_scaled_index (random : R) (n i : nat) :
  (0 < n)%nat ->
  JS.Math_floor (random * INR n) = Z.of_nat i <->
  INR i / INR n <= random < (INR i + 1) / INR n.
Proof.
  intros Hn. assert (HnR : 0 < INR n) by now apply lt_0_INR.
  unfold JS.Math_floor. rewrite INR_IZR_INZ with (n := i).
  split.
  - intros H. pose proof (Zfloor_bound (random * INR n)) as [Hlo Hhi].
    rewrite H in Hlo, Hhi. split.
    + apply Rmult_le_reg_r with (INR n); [assumption |].
      replace (IZR (Z.of_nat i) / INR n * INR n) with (IZR (Z.of_nat i))
        by (field; lra). assumption.
    + apply Rmult_lt_reg_r with (INR n); [assumption |].
      replace ((IZR (Z.of_nat i) + 1) / INR n * INR n)
        with (IZR (Z.of_nat i) + 1) by (field; lra). assumption.
  - intros [Hlo Hhi]. apply Zfloor_eq. split.
    + apply Rmult_le_compat_r with (r := INR n) in Hlo; [| lra].
      replace (IZR (Z.of_nat i) / INR n * INR n) with (IZR (Z.of_nat i)) in Hlo
        by (field; lra). assumption.
    + apply Rmult_lt_compat_r with (r := INR n) in Hhi; [| assumption].
      replace ((IZR (Z.of_nat i) + 1) / INR n * INR n)
        with (IZR (Z.of_nat i) + 1) in Hhi by (field; lra). assumption.
Qed.

Lemma floor_scaled_range (random : R) (n : nat) :
  (0 < n)%nat -> 0 <= random < 1 ->
  (0 <= JS.Math_floor (random * INR n) < Z.of_nat n)%Z.
Proof.
  intros Hn [H0 H1]. assert (HnR : 0 < INR n) by now apply lt_0_INR.
  unfold JS.Math_floor.
  pose proof (Zfloor_bound (random * INR n)) as [Hlo Hhi].
  split.
  - apply (Zfloor_lub 0). simpl. nra.
  - apply lt_IZR. rewrite <- INR_IZR_INZ. nra.
Qed.

(** C6.  For a palette of at least two distinct colours that contains the
    current colour, and [Math.random()] in [[0,1)]: the handler chooses
    among the palette entries other than the current colour, there are
    [length palette - 1] of them, the entry of index [i] is chosen exactly
    when the random value falls in the [i]-th of that many equal parts of
    [[0,1)] (so each is equally likely under a uniform [Math.random]), a
    colour is always returned, and it is never the previous one. *)
Theorem swipe_picks_other_color_uniformly
        (palette : list string) (prev : string) (random : R) :
  NoDup palette ->
  (2 <= List.length palette)%nat ->
  In prev palette ->
  0 <= random < 1 ->
  let available := filter (fun c => negb (String.eqb c prev)) palette in
  (forall c, In c available <-> In c palette /\ c <> prev) /\
  List.length available = (List.length palette - 1)%nat /\
  (forall i c,
      nth_error available i = Some c ->
      (swipe palette random prev = Some c <->
       INR i / INR (List.length available) <= random
         < (INR i + 1) / INR (List.length available))) /\
  (exists c, swipe palette random prev = Some c /\
             In c palette /\ c <> prev) /\
  swipe palette random prev <> Some prev.
Proof.
  intros Hnd Hlen Hin Hrand available.
  change available with (others palette prev).
  pose proof (@others_length palette prev Hnd Hin) as Hothers.
  assert (Hpos : (0 < List.length (others palette prev))%nat) by lia.
  pose proof (@floor_scaled_range random _ Hpos Hrand) as Hrange.
  assert (Hswipe : swipe palette random prev =
                   nth_error (others palette prev)
                     (Z.to_nat (JS.Math_floor
                        (random * INR (List.length (others palette prev)))))).
  { unfold swipe, JS.index. fold (others palette prev).
    destruct (Z.ltb_spec
                (JS.Math_floor
                   (random * INR (List.length (others palette prev)))) 0);
      [lia | reflexivity]. }
  split; [intros c; apply others_In |].
  split; [lia |].
  split; [| split; [| apply swipe_not_prev]].
  - intros i c Hi. rewrite <- (@floor_scaled_index random _ i Hpos).
    rewrite Hswipe. split.
    + intros Hc.
      assert (Hidx : Z.to_nat (JS.Math_floor
                (random * INR (List.length (others palette prev)))) = i).
      { apply (proj1 (NoDup_nth_error (others palette prev))
                     (@others_NoDup palette prev Hnd)).
        - apply Nat2Z.inj_lt. rewrite Z2Nat.id; lia.
        - congruence. }
      lia.
    + intros ->. now rewrite Nat2Z.id.
  - destruct (nth_error (others palette prev)
                (Z.to_nat (JS.Math_floor
                   (random * INR (List.length (others palette prev))))))
      as [c |] eqn:E.
    + exists c. split; [now rewrite Hswipe |].
      apply others_In. exact (nth_error_In _ _ E).
    + apply nth_error_None in E. lia.
Qed.

Lemma PALETTE_NoDup : NoDup PALETTE.
Proof.
  unfold PALETTE.
  repeat (constructor; [simpl; intuition discriminate |]). constructor.
Qed.

Lemma swipe_picks_other_color_uniformly_witness :
  handleSwipe 0.5 "#ffa6c9" = Some "#ffcc00"%string /\
  handleSwipe 0.5 "#ffa6c9" <> Some "#ffa6c9"%string.
Proof.
  assert (Hlen : (2 <= List.length PALETTE)%nat) by (simpl; lia).
  assert (Hin : In "#ffa6c9"%string PALETTE) by (simpl; auto).
  assert (Hrand : 0 <= 0.5 < 1) by lra.
  destruct (@swipe_picks_other_color_uniformly PALETTE "#ffa6c9" 0.5
              PALETTE_NoDup Hlen Hin Hrand)
    as (_ & _ & Huniform & _ & Hnot).
  split; [| exact Hnot].
  apply (Huniform 1%nat "#ffcc00"%string eq_refl). simpl. lra.
Defined.

End Swipe.

(** ** The petal's opening angle *)

Section OpeningAngle.
Import THREE LotusParticles.

Lemma layersDef_length : List.length layersDef = 6%nat.
Proof. reflexivity. Qed.

Lemma totalLayers_value : INR (List.length layersDef) = 6.
Proof. rewrite layersDef_length. simpl. lra. Qed.

(** The angle [calculatePetalShape] returns depends on the layer only. *)
Lemma calculatePetalShape_angle (u v layerIndex totalLayers : R) :
  snd (calculatePetalShape u v layerIndex totalLayers) =
  0.2 + JS.Math_pow (layerIndex / totalLayers) 1.5 * 1.5.
Proof. reflexivity. Qed.

Lemma maxOpenAngle_formula (layerIndex totalLayers : R) :
  maxOpenAngle layerIndex totalLayers =
  0.2 + JS.Math_pow (layerIndex / totalLayers) 1.5 * 1.5.
Proof. reflexivity. Qed.

Lemma maxOpenAngle_lower_bound (layerIndex totalLayers : R) :
  0.2 <= maxOpenAngle layerIndex totalLayers.
Proof.
  rewrite maxOpenAngle_formula.
  pose proof (Math_pow_15_nonneg (layerIndex / totalLayers)). lra.
Qed.

Lemma layerRatio_monotone (i j : nat) :
  (i <= j)%nat ->
  0 <= INR i / INR (List.length layersDef)
    <= INR j / INR (List.length layersDef).
Proof.
  intros Hij. rewrite totalLayers_value.
  pose proof (pos_INR i). apply le_INR in Hij. lra.
Qed.

(** C5.  For layer indices [i <= j] of the six-layer table, the
    [maxOpenAngle] that [calculatePetalShape] returns for layer [i] (at any
    [u], [v]) is at most the one it returns for layer [j]; the angle is
    [0.2 + (layerIndex / totalLayers)^1.5 * 1.5]. *)
Theorem maxOpenAngle_nondecreasing (i j : nat) (u v u' v' : R) :
  (i <= j)%nat ->
  (j < List.length layersDef)%nat ->
  let totalLayers := INR (List.length layersDef) in
  snd (calculatePetalShape u v (INR i) totalLayers) <=
  snd (calculatePetalShape u' v' (INR j) totalLayers) /\
  snd (calculatePetalShape u v (INR i) totalLayers) =
  0.2 + JS.Math_pow (INR i / 6) 1.5 * 1.5.
Proof.
  intros Hij Hj totalLayers. subst totalLayers.
  rewrite !calculatePetalShape_angle. split.
  - pose proof (Math_pow_15_monotone (layerRatio_monotone Hij)). lra.
  - now rewrite totalLayers_value.
Qed.

Lemma maxOpenAngle_nondecreasing_witness :
  snd (calculatePetalShape 0 0.5 (INR 0) (INR (List.length layersDef))) <=
  snd (calculatePetalShape 1 0.5 (INR 5) (INR (List.length layersDef))).
Proof.
  refine (proj1 (@maxOpenAngle_nondecreasing 0 5 0 0.5 1 0.5 _ _)).
  - lia.
  - simpl. lia.
Defined.

(** [smoothstep(0.0, 1.0, x)] is the cubic [3 x^2 - 2 x^3] on [[0,1]] and
    stays in [[0,1]] everywhere. *)
Lemma smoothstep_unit (x : R) :
  0 <= x <= 1 -> GLSL.smoothstep 0.0 1.0 x = Spec.smoothstep x.
Proof.
  intros [H0 H1]. unfold GLSL.smoothstep, GLSL.clamp, Spec.smoothstep.
  replace ((x - 0.0) / (1.0 - 0.0)) with x by lra.
  rewrite Rmax_left by lra. rewrite Rmin_left by lra. ring.
Qed.

Lemma smoothstep_range (x : R) : 0 <= GLSL.smoothstep 0.0 1.0 x <= 1.
Proof.
  unfold GLSL.smoothstep, GLSL.clamp.
  set (t := Rmin (Rmax ((x - 0.0) / (1.0 - 0.0)) 0) 1).
  assert (Ht : 0 <= t <= 1).
  { subst t. split.
    - apply Rmin_glb; [apply Rmax_r | lra].
    - apply Rmin_r. }
  split.
  - apply Rmult_le_pos; [apply Rmult_le_pos |]; lra.
  - replace (t * t * (3 - 2 * t))
      with (1 - (1 - t) * (1 - t) * (1 + 2 * t)) by ring.
    assert (0 <= (1 - t) * (1 - t) * (1 + 2 * t)); [| lra].
    apply Rmult_le_pos; [apply Rmult_le_pos |]; lra.
Qed.

Lemma mix_as_lerp (x y a : R) : GLSL.mix x y a = Spec.lerp x y a.
Proof. unfold GLSL.mix, Spec.lerp. ring. Qed.

Lemma currentAngle_spec (aInfo : Vector3) (uBloomState : R) :
  0 <= uBloomState <= 1 ->
  currentAngle aInfo uBloomState = Spec.openingAngle (vy aInfo) uBloomState.
Proof.
  intros Hb. unfold currentAngle, cycle, Spec.openingAngle.
  now rewrite mix_as_lerp, smoothstep_unit.
Qed.

(** For a non-negative [maxOpenAngle] the applied angle lies between the
    residual 15% and the full angle, for every value of the uniform. *)
Lemma currentAngle_range (aInfo : Vector3) (uBloomState : R) :
  0 <= vy aInfo ->
  vy aInfo * 0.15 <= currentAngle aInfo uBloomState <= vy aInfo.
Proof.
  intros Hy. unfold currentAngle, cycle, GLSL.mix.
  pose proof (smoothstep_range uBloomState) as Hs. split; nra.
Qed.

(** C7.  For a particle that the shader does not treat as aura and a bloom
    amount in [[0,1]], the petal branch rotates by
    [currentAngle = lerp(maxOpenAngle * 0.15, maxOpenAngle,
    smoothstep(bloomAmount))]: the position it computes is the petal
    transform of section 4.4 with this angle.  At bloom amount [0] the angle
    is 15% of [maxOpenAngle]; and for a petal particle, whose [maxOpenAngle]
    is the one [calculatePetalShape] returns, the angle is at least 15% of
    it and never zero. *)
Theorem petal_opening_angle (u : Uniforms) (position aInfo : Vector3) :
  isAura aInfo = false ->
  0 <= uBloomState u <= 1 ->
  currentAngle aInfo (uBloomState u) =
    Spec.lerp (vy aInfo * 0.15) (vy aInfo) (Spec.smoothstep (uBloomState u)) /\
  flowerPos_branch u position aInfo =
    Spec.petalTransform position (vx aInfo) (vy aInfo) (vz aInfo)
                        (uBloomState u) /\
  currentAngle aInfo 0 = 0.15 * vy aInfo /\
  (forall layerIdx pu pv,
      vy aInfo = snd (calculatePetalShape pu pv (INR layerIdx)
                         (INR (List.length layersDef))) ->
      vy aInfo * 0.15 <= currentAngle aInfo (uBloomState u) /\
      0.03 <= currentAngle aInfo (uBloomState u) /\
      currentAngle aInfo (uBloomState u) <> 0).
Proof.
  intros Haura Hb.
  pose proof (currentAngle_spec aInfo Hb) as Hangle.
  split; [exact Hangle |]. split; [| split].
  - unfold flowerPos_branch. rewrite Haura. cbn [negb].
    rewrite Hangle. unfold Spec.petalTransform, Spec.rotateY, Spec.rotateX.
    cbn [vx vy vz]. reflexivity.
  - rewrite currentAngle_spec by lra.
    unfold Spec.openingAngle, Spec.lerp, Spec.smoothstep. ring.
  - intros layerIdx pu pv Hy.
    assert (H02 : 0.2 <= vy aInfo).
    { rewrite Hy. apply (maxOpenAngle_lower_bound (INR layerIdx)). }
    assert (Hr : vy aInfo * 0.15 <= currentAngle aInfo (uBloomState u) <= vy aInfo)
      by (apply currentAngle_range; lra).
    repeat split; lra.
Qed.

Lemma petal_opening_angle_witness :
  currentAngle (vec3 0 0.2 0) 0 = 0.15 * 0.2 /\
  currentAngle (vec3 0 0.2 0) (uBloomState initialUniforms) <> 0.
Proof.
  assert (Haura : isAura (vec3 0 0.2 0) = false).
  { apply ltb_false. simpl. lra. }
  assert (Hb : 0 <= uBloomState initialUniforms <= 1) by (simpl; lra).
  destruct (@petal_opening_angle initialUniforms (vec3 0 0 0) (vec3 0 0.2 0)
              Haura Hb) as (_ & _ & H0 & Hpetal).
  split; [exact H0 |].
  apply (Hpetal 0%nat 0 0).
  cbn [vy]. rewrite calculatePetalShape_angle.
  replace (INR 0 / INR (List.length layersDef)) with 0
    by (simpl; lra).
  rewrite Math_pow_15_zero. lra.
Defined.

End OpeningAngle.

(** ** The geometry generator *)

Section GeneratorFacts.
Import THREE LotusParticles Growth.

Variable random_seq : nat -> R.
Variable Color_ofStyle : string -> Color.
Variable Color_offsetHSL : Color -> R -> R -> R -> Color.

Lemma flatten_app (xs ys : list Vector3) :
  flatten (xs ++ ys) = flatten xs ++ flatten ys.
Proof. apply flat_map_app. Qed.

Lemma flatten_length (items : list Vector3) :
  List.length (flatten items) = (3 * List.length items)%nat.
Proof.
  induction items as [| v rest IH]; [reflexivity |].
  change (flatten (v :: rest)) with ([vx v; vy v; vz v] ++ flatten rest).
  rewrite length_app, IH. cbn [List.length]. lia.
Qed.

Lemma grown_refl (P : Vector3 -> Prop) (s : GenState) : grown P s 0 s.
Proof.
  exists []. cbn [List.length flatten flat_map].
  rewrite app_nil_r. repeat split; auto; lia.
Qed.

Lemma grown_trans (P : Vector3 -> Prop) (s0 s1 s2 : GenState) (k k' : nat) :
  grown P s0 k s1 -> grown P s1 k' s2 -> grown P s0 (k + k') s2.
Proof.
  intros (xs & Hlx & HPx & Hix & Hpx & Hcx & Hrx)
         (ys & Hly & HPy & Hiy & Hpy & Hcy & Hry).
  exists (xs ++ ys). repeat split.
  - rewrite length_app. lia.
  - apply Forall_app. now split.
  - rewrite Hiy, Hix, flatten_app. now rewrite app_assoc.
  - lia.
  - lia.
  - lia.
Qed.

Lemma adds_ret (P : Vector3 -> Prop) (A : Type) (a : A) : adds P (ret a) 0.
Proof. intros s. apply grown_refl. Qed.

Lemma adds_bind (P : Vector3 -> Prop) (A B : Type) (m : Gen A)
      (f : A -> Gen B) (k k' : nat) :
  adds P m k -> (forall a, adds P (f a) k') -> adds P (bind m f) (k + k').
Proof.
  intros Hm Hf s. unfold bind. specialize (Hm s).
  destruct (m s) as [a s']. cbn [snd] in Hm.
  eapply grown_trans; [exact Hm | apply Hf].
Qed.

(** A loop whose body appends [c] particles appends [n * c]. *)
Lemma adds_for_from (P : Vector3 -> Prop) (body : nat -> Gen unit) (c : nat) :
  (forall i, adds P (body i) c) ->
  forall n i, adds P (for_from i n body) (n * c).
Proof.
  intros Hbody. induction n as [| n IH]; intros i.
  - apply adds_ret.
  - cbn [for_from Nat.mul]. apply adds_bind; [apply Hbody |].
    intros _. apply IH.
Qed.

Lemma adds_for_range (P : Vector3 -> Prop) (body : nat -> Gen unit)
      (c n : nat) :
  (forall i, adds P (body i) c) -> adds P (for_range n body) (n * c).
Proof. intros H. now apply adds_for_from. Qed.

(** [forEach]: the element at position [j] is visited with index
    [idx + j]. *)
Lemma adds_forEach_from (P : Vector3 -> Prop) (A : Type)
      (body : A -> nat -> Gen unit) (c : A -> nat) :
  forall (arr : list A) (idx : nat),
    (forall j a, nth_error arr j = Some a ->
                 adds P (body a (idx + j)%nat) (c a)) ->
    adds P (forEach_from idx arr body) (list_sum (map c arr)).
Proof.
  induction arr as [| a rest IH]; intros idx Hbody.
  - apply adds_ret.
  - cbn [forEach_from map list_sum]. apply adds_bind.
    + specialize (Hbody 0%nat a eq_refl). now rewrite Nat.add_0_r in Hbody.
    + intros _. apply IH. intros j a' Hj.
      rewrite Nat.add_succ_comm. now apply (Hbody (S j)).
Qed.

Lemma vein_point_adds (colDeep colMain colLight colTip colGold : Color)
      (layerIdx : nat) (petalRotation layerYOffset : R) (pointsPerVein : Z)
      (vBase : R) (i : nat) :
  (layerIdx < List.length layersDef)%nat ->
  adds PetalInfo
       (vein_point random_seq colDeep colMain colLight colTip colGold layerIdx
                   petalRotation layerYOffset pointsPerVein vBase i) 1.
Proof.
  intros Hlayer [d pos col info rand].
  cbv [vein_point bind Math_random drawn tempPos tempCol tempInfo tempRand].
  match goal with
  | |- context [calculatePetalShape ?u ?v ?l ?t] =>
      pose proof (calculatePetalShape_angle u v l t) as Hangle;
      destruct (calculatePetalShape u v l t) as [vec maxAngle]
  end.
  cbn [snd] in Hangle.
  cbv [push_pos push_info push_rand push_col bind snd
       drawn tempPos tempCol tempInfo tempRand].
  exists [vec3 petalRotation maxAngle layerYOffset].
  cbn [tempPos tempCol tempInfo tempRand]. rewrite !length_app.
  repeat split.
  constructor; [| constructor].
  exists layerIdx. split; [assumption |].
  cbn [vy]. now rewrite maxOpenAngle_formula.
Qed.

Lemma petal_adds (colDeep colMain colLight colTip colGold : Color)
      (perPetal : Z) (layer : Layer) (layerIdx p : nat) :
  (layerIdx < List.length layersDef)%nat ->
  adds PetalInfo
       (petal random_seq colDeep colMain colLight colTip colGold perPetal
              layer layerIdx p)
       (veins * (Z.to_nat (JS.Math_floor (IZR perPetal / INR veins)) * 1)).
Proof.
  intros Hlayer. unfold petal.
  apply adds_for_range. intros vIdx.
  apply adds_for_range. intros i.
  now apply vein_point_adds.
Qed.

Lemma aura_point_adds (colMain colLight : Color) (i : nat) :
  adds AuraInfo (aura_point random_seq colMain colLight i) 1.
Proof.
  intros [d pos col info rand].
  cbv [aura_point bind Math_random push_pos push_info push_rand push_col snd
       drawn tempPos tempCol tempInfo tempRand].
  exists [vec3 0 (-1.0) 0].
  cbn [tempPos tempCol tempInfo tempRand]. rewrite !length_app.
  repeat split.
  constructor; [reflexivity | constructor].
Qed.

(** The arrays of [generate]: first the petal particles, then the aura
    particles, three numbers per particle in each array. *)
Lemma generate_structure (config : LotusConfig) (activeColor : string) :
  let geometry :=
    generate random_seq Color_ofStyle Color_offsetHSL config activeColor in
  exists petalItems auraItems : list Vector3,
    infos geometry = flatten (petalItems ++ auraItems) /\
    List.length petalItems = petalParticles config /\
    Forall PetalInfo petalItems /\
    List.length auraItems = auraCount /\
    Forall AuraInfo auraItems /\
    List.length (positions geometry) =
      (3 * (petalParticles config + auraCount))%nat /\
    List.length (colors geometry) =
      (3 * (petalParticles config + auraCount))%nat /\
    List.length (randoms geometry) =
      (3 * (petalParticles config + auraCount))%nat.
Proof.
  cbv zeta. unfold generate, generate_state, generate_body.
  cbn [positions colors infos randoms].
  set (colDeep := Color_offsetHSL (Color_ofStyle activeColor) 0 0 (-0.4)).
  set (colMain := Color_ofStyle activeColor).
  set (colLight := Color_offsetHSL colMain 0 (-0.2) 0.3).
  set (colTip := Color_ofStyle "#ffffff").
  set (colGold := Color_ofStyle "#ffaa00").
  set (layerLoop := forEach layersDef _).
  assert (Hpetals : adds PetalInfo layerLoop (petalParticles config)).
  { subst layerLoop. unfold forEach, petalParticles.
    apply adds_forEach_from with
      (c := fun l : Layer =>
              (count l * (veins * (Z.to_nat (pointsPerVein config) * 1)))%nat).
    intros j layer Hj. cbn [Nat.add].
    apply adds_for_range. intros p. apply petal_adds.
    apply nth_error_Some. congruence. }
  assert (Haura : adds AuraInfo
                       (for_range auraCount
                          (aura_point random_seq colMain colLight))
                       (auraCount * 1)).
  { apply adds_for_range. intros i. apply aura_point_adds. }
  unfold bind.
  specialize (Hpetals emptyState).
  destruct (layerLoop emptyState) as [[] s1]. cbn [snd] in Hpetals.
  specialize (Haura s1).
  destruct Hpetals as (xs & Hlx & HPx & Hix & Hpx & Hcx & Hrx).
  destruct Haura as (ys & Hly & HPy & Hiy & Hpy & Hcy & Hry).
  cbn [emptyState tempInfo tempPos tempCol tempRand List.length app] in *.
  exists xs, ys.
  split; [rewrite Hiy, Hix, flatten_app; reflexivity |].
  split; [exact Hlx |]. split; [exact HPx |].
  split; [lia |]. split; [exact HPy |].
  split; [lia |]. split; lia.
Qed.

(** Reading particle [k] out of a flat array. *)
Lemma attribute_flatten (items : list Vector3) :
  forall k, attribute (flatten items) k = nth_error items k.
Proof.
  induction items as [| [a b c] rest IH]; intros k.
  - unfold attribute. cbn [flatten flat_map].
    rewrite !nth_error_nil. now destruct k.
  - destruct k as [| k].
    + reflexivity.
    + unfold attribute in *.
      replace (3 * S k)%nat with (S (S (S (3 * k)))) by lia.
      replace (S (S (S (3 * k))) + 1)%nat with (S (S (S (3 * k + 1)))) by lia.
      replace (S (S (S (3 * k))) + 2)%nat with (S (S (S (3 * k + 2)))) by lia.
      cbn [flatten flat_map vx vy vz app nth_error].
      apply IH.
Qed.

(** [pointsPerVein] and the petal count in integers. *)
Lemma totalPetals_value : totalPetals = 99%nat.
Proof. reflexivity. Qed.

Lemma particlesPerPetal_div (config : LotusConfig) :
  particlesPerPetal config = (petalCount config / 99)%Z.
Proof.
  unfold particlesPerPetal. rewrite totalPetals_value.
  rewrite (INR_IZR_INZ 99). now apply Math_floor_div.
Qed.

Lemma pointsPerVein_div (config : LotusConfig) :
  pointsPerVein config = (petalCount config / 99 / 7)%Z.
Proof.
  unfold pointsPerVein. rewrite particlesPerPetal_div.
  unfold veins. rewrite (INR_IZR_INZ 7). now apply Math_floor_div.
Qed.

Lemma layerSum_value (n : Z) : layerSum n = (693 * n)%Z.
Proof. unfold layerSum, layersDef, veins. cbn [fold_right count]. lia. Qed.

Lemma petalParticles_value (config : LotusConfig) :
  (0 <= pointsPerVein config)%Z ->
  Z.of_nat (petalParticles config) = layerSum (pointsPerVein config).
Proof.
  intros Hpos. rewrite layerSum_value.
  unfold petalParticles, layersDef, veins.
  cbn [map list_sum fold_right count]. lia.
Qed.

Lemma pointsPerVein_nonneg (config : LotusConfig) :
  (0 < petalCount config)%Z -> (0 <= pointsPerVein config)%Z.
Proof.
  intros Hpos. rewrite pointsPerVein_div.
  apply Z.div_pos; [apply Z.div_pos |]; lia.
Qed.

(** Seven times ninety-nine times the points per vein is at most the
    target: two floor divisions. *)
Lemma layerSum_le_target (config : LotusConfig) :
  (0 < petalCount config)%Z ->
  (layerSum (pointsPerVein config) <= petalCount config)%Z.
Proof.
  intros Hpos. rewrite layerSum_value, pointsPerVein_div.
  pose proof (Z.mul_div_le (petalCount config) 99 ltac:(lia)).
  pose proof (Z.mul_div_le (petalCount config / 99) 7 ltac:(lia)).
  lia.
Qed.

Lemma auraCount_value : Z.of_nat auraCount = 8000%Z.
Proof. unfold auraCount. now rewrite Z2Nat.id. Qed.

Lemma itemCount_triples (array : list R) (n : nat) :
  List.length array = (3 * n)%nat -> itemCount array = IZR (Z.of_nat n).
Proof.
  intros H. unfold itemCount. rewrite H, mult_INR, <- INR_IZR_INZ.
  simpl. field.
Qed.

(** The number of particles of the generated geometry. *)
Lemma generate_itemCount (config : LotusConfig) (activeColor : string) :
  (0 <= pointsPerVein config)%Z ->
  let geometry :=
    generate random_seq Color_ofStyle Color_offsetHSL config activeColor in
  itemCount (positions geometry) =
    IZR (layerSum (pointsPerVein config) + 8000) /\
  itemCount (colors geometry) = itemCount (positions geometry) /\
  itemCount (infos geometry) = itemCount (positions geometry) /\
  itemCount (randoms geometry) = itemCount (positions geometry).
Proof.
  intros Hpos geometry.
  destruct (generate_structure config activeColor)
    as (xs & ys & Hi & Hlx & _ & Hly & _ & Hp & Hc & Hr).
  fold geometry in Hi, Hp, Hc, Hr.
  assert (Hinfo : List.length (infos geometry) =
                  (3 * (petalParticles config + auraCount))%nat).
  { rewrite Hi, flatten_length, length_app. lia. }
  rewrite (@itemCount_triples _ _ Hp), (@itemCount_triples _ _ Hc),
          (@itemCount_triples _ _ Hinfo), (@itemCount_triples _ _ Hr).
  split; [| repeat split].
  now rewrite Nat2Z.inj_add, petalParticles_value, auraCount_value.
Qed.

(** C3, as the code has it.  For a positive particle target the number of
    generated particles is (sum over the six layers of petals x 7 veins x
    pointsPerVein) + 8000, with [pointsPerVein = floor(floor(target / 99) /
    7)]; it is not negative; the petal part (the sum) is at most the target,
    so the total is at most the target plus the 8000 aura particles. *)
Theorem particle_count_formula (config : LotusConfig) (activeColor : string) :
  (0 < petalCount config)%Z ->
  let geometry :=
    generate random_seq Color_ofStyle Color_offsetHSL config activeColor in
  let n := pointsPerVein config in
  n = (petalCount config / 99 / 7)%Z /\
  itemCount (positions geometry) = IZR (layerSum n + 8000) /\
  0 <= itemCount (positions geometry) /\
  (layerSum n <= petalCount config)%Z /\
  itemCount (positions geometry) <= IZR (petalCount config) + 8000.
Proof.
  intros Hpos geometry n.
  pose proof (pointsPerVein_nonneg config Hpos) as Hn.
  destruct (generate_itemCount config activeColor Hn) as [Hcount _].
  fold geometry n in Hcount.
  pose proof (layerSum_le_target config Hpos) as Hle. fold n in Hle.
  assert (H0 : (0 <= layerSum n)%Z).
  { rewrite layerSum_value. subst n. lia. }
  rewrite Hcount, plus_IZR.
  pose proof (IZR_le _ _ Hle) as HleR. pose proof (IZR_le _ _ H0) as H0R.
  split; [apply pointsPerVein_div |]. split; [reflexivity |].
  split; [lra |]. split; [exact Hle | lra].
Qed.

(** C9.  Two configurations that agree on every field but the layer count
    yield, for the same random sequence (and colour), the same four arrays
    and consume the same number of random values; the layers are those of
    the fixed table with petal counts 5, 8, 12, 18, 24, 32. *)
Theorem generator_ignores_layer_count (c1 c2 : LotusConfig)
        (activeColor : string) :
  petalCount c1 = petalCount c2 ->
  particleSize c1 = particleSize c2 ->
  rotationSpeed c1 = rotationSpeed c2 ->
  bloomIntensity c1 = bloomIntensity c2 ->
  generate random_seq Color_ofStyle Color_offsetHSL c1 activeColor =
  generate random_seq Color_ofStyle Color_offsetHSL c2 activeColor /\
  drawn (generate_state random_seq Color_ofStyle Color_offsetHSL c1
                        activeColor) =
  drawn (generate_state random_seq Color_ofStyle Color_offsetHSL c2
                        activeColor) /\
  map count layersDef = [5; 8; 12; 18; 24; 32]%nat.
Proof.
  intros Hcount _ _ _.
  assert (Hstate :
            generate_state random_seq Color_ofStyle Color_offsetHSL c1
                           activeColor =
            generate_state random_seq Color_ofStyle Color_offsetHSL c2
                           activeColor).
  { unfold generate_state, generate_body, particlesPerPetal.
    now rewrite Hcount. }
  unfold generate. rewrite Hstate. repeat split.
Qed.

End GeneratorFacts.

(** ** The generator on the initial configuration *)

Section InitialGeometry.
Import THREE LotusParticles Growth Scenario.

Lemma pointsPerVein_initial : pointsPerVein initialConfig = 115%Z.
Proof. rewrite pointsPerVein_div. reflexivity. Qed.

Lemma petalParticles_initial :
  Z.of_nat (petalParticles initialConfig) = 79695%Z.
Proof.
  rewrite petalParticles_value; rewrite pointsPerVein_initial; [| lia].
  now rewrite layerSum_value.
Qed.

Lemma initial_itemCount (random_seq : nat -> R)
      (Color_ofStyle : string -> Color)
      (Color_offsetHSL : Color -> R -> R -> R -> Color)
      (activeColor : string) :
  itemCount (positions (generate random_seq Color_ofStyle Color_offsetHSL
                                 initialConfig activeColor)) = 87695.
Proof.
  assert (Hn : (0 <= pointsPerVein initialConfig)%Z)
    by (rewrite pointsPerVein_initial; lia).
  destruct (generate_itemCount random_seq Color_ofStyle Color_offsetHSL
              initialConfig activeColor Hn) as [Hcount _].
  rewrite Hcount, pointsPerVein_initial, layerSum_value. reflexivity.
Qed.

Lemma particle_count_formula_witness :
  itemCount (positions (generate zeroRandom plainStyle keepHSL
                                 initialConfig "#ffa6c9")) =
    IZR (layerSum (pointsPerVein initialConfig) + 8000) /\
  (layerSum (pointsPerVein initialConfig) <= petalCount initialConfig)%Z.
Proof.
  assert (Hpos : (0 < petalCount initialConfig)%Z) by (simpl; lia).
  destruct (@particle_count_formula zeroRandom plainStyle keepHSL
              initialConfig "#ffa6c9" Hpos) as (_ & Hcount & _ & Hle & _).
  split; assumption.
Defined.

(** C3 as stated fails: the initial configuration has the positive target
    80000 and the generator yields 87695 particles, whatever the random
    values and the colours. *)
Lemma particle_count_exceeds_target :
  (0 < petalCount initialConfig)%Z /\
  itemCount (positions (generate zeroRandom plainStyle keepHSL
                                 initialConfig "#ffa6c9")) = 87695 /\
  ~ itemCount (positions (generate zeroRandom plainStyle keepHSL
                                   initialConfig "#ffa6c9"))
    <= IZR (petalCount initialConfig) /\
  (forall random_seq Color_ofStyle Color_offsetHSL activeColor,
      ~ itemCount (positions (generate random_seq Color_ofStyle
                                       Color_offsetHSL initialConfig
                                       activeColor))
        <= IZR (petalCount initialConfig)).
Proof.
  split; [simpl; lia |]. split; [apply initial_itemCount |].
  split; [| intros random_seq Color_ofStyle Color_offsetHSL activeColor];
    rewrite initial_itemCount; simpl; lra.
Qed.

Lemma generator_ignores_layer_count_witness :
  generate zeroRandom plainStyle keepHSL initialConfig "#ffa6c9" =
  generate zeroRandom plainStyle keepHSL sixLayerConfig "#ffa6c9".
Proof.
  exact (proj1 (@generator_ignores_layer_count zeroRandom plainStyle keepHSL
                  initialConfig sixLayerConfig "#ffa6c9"
                  eq_refl eq_refl eq_refl eq_refl)).
Defined.

End InitialGeometry.

(** ** Several frames of the smoother *)

Section SmootherRuns.
Import LotusParticles Runs.

Lemma runFrames_cons (inp : FrameInput) (inps : list FrameInput)
      (st : FrameState) :
  runFrames (inp :: inps) st = runFrames inps (useFrame inp st).
Proof. reflexivity. Qed.

(** One frame multiplies the distance to the target by [1 - factor]. *)
Lemma lerp_error (x y t : R) : y - THREE.lerp x y t = (1 - t) * (y - x).
Proof. unfold THREE.lerp. ring. Qed.

(** X1.  [n] frames with the same props and the same frame time leave the
    bloom amount at [target + (1 - delta * 2.0)^n * (bloom - target)] and the
    form amount at [target + (1 - delta * 1.5)^n * (form - target)]: the
    distance to the target is multiplied by [1 - delta * rate] per frame. *)
Theorem smoother_closed_form (inp : FrameInput) (n : nat) (st : FrameState) :
  currentBloomRef (runFrames (repeat inp n) st) =
    targetBloom inp +
    (1 - delta inp * 2.0) ^ n * (currentBloomRef st - targetBloom inp) /\
  currentFormRef (runFrames (repeat inp n) st) =
    targetForm inp +
    (1 - delta inp * 1.5) ^ n * (currentFormRef st - targetForm inp).
Proof.
  revert st. induction n as [| n IH]; intros st.
  - cbn [repeat runFrames fold_left pow]. split; ring.
  - cbn [repeat]. rewrite runFrames_cons.
    destruct (IH (useFrame inp st)) as [Hb Hf]. rewrite Hb, Hf.
    rewrite useFrame_bloom, useFrame_form. unfold THREE.lerp.
    cbn [pow]. split; ring.
Qed.

(** X2.  Whatever the hand does from frame to frame, as long as every frame
    time lies in [[0, 0.5]] the two amounts never leave [[0,1]]. *)
Theorem smoother_range_invariant (inps : list FrameInput) (st : FrameState) :
  Forall (fun inp => 0 <= delta inp <= 0.5) inps ->
  0 <= currentBloomRef st <= 1 ->
  0 <= currentFormRef st <= 1 ->
  0 <= currentBloomRef (runFrames inps st) <= 1 /\
  0 <= currentFormRef (runFrames inps st) <= 1.
Proof.
  intros Hall. revert st.
  induction Hall as [| inp inps Hd _ IH]; intros st Hb Hf.
  - now split.
  - rewrite runFrames_cons. apply IH.
    + rewrite useFrame_bloom.
      apply (lerp_approaches Hb (target_in_unit (isBlooming inp))). lra.
    + rewrite useFrame_form.
      apply (lerp_approaches Hf (target_in_unit (isHandPresent inp))). lra.
Qed.

Lemma smoother_range_invariant_witness :
  0 <= currentBloomRef
         (runFrames [Scenario.quarterSecondFrame; Scenario.quarterSecondFrame]
                    initialFrame) <= 1.
Proof.
  assert (Hd : Forall (fun inp => 0 <= delta inp <= 0.5)
                 [Scenario.quarterSecondFrame; Scenario.quarterSecondFrame]).
  { repeat constructor; simpl; lra. }
  assert (Hb : 0 <= currentBloomRef initialFrame <= 1) by (simpl; lra).
  assert (Hf : 0 <= currentFormRef initialFrame <= 1) by (simpl; lra).
  exact (proj1 (@smoother_range_invariant _ initialFrame Hd Hb Hf)).
Defined.

(** X3.  A frame time above half a second carries the bloom amount past its
    target (unless it is already there), and a frame time above one second
    leaves it farther from the target than it was. *)
Theorem smoother_long_frame_overshoots (inp : FrameInput) (st : FrameState) :
  currentBloomRef st <> targetBloom inp ->
  (1 < delta inp * 2.0 ->
   (targetBloom inp - currentBloomRef (useFrame inp st)) *
   (targetBloom inp - currentBloomRef st) < 0) /\
  (2 < delta inp * 2.0 ->
   Rabs (targetBloom inp - currentBloomRef st) <
   Rabs (targetBloom inp - currentBloomRef (useFrame inp st))).
Proof.
  intros Hne. rewrite useFrame_bloom, lerp_error.
  set (e := targetBloom inp - currentBloomRef st).
  assert (He : e <> 0) by (subst e; lra).
  assert (Hsq : 0 < e * e) by (apply Rsqr_pos_lt in He; exact He).
  split; intros Ht.
  - nra.
  - rewrite Rabs_mult.
    assert (Hpos : 0 < Rabs e) by now apply Rabs_pos_lt.
    assert (Hfac : 1 < Rabs (1 - delta inp * 2.0)).
    { rewrite Rabs_left by lra. lra. }
    nra.
Qed.

Lemma smoother_long_frame_overshoots_witness :
  (targetBloom Scenario.oneSecondFrame -
   currentBloomRef (useFrame Scenario.oneSecondFrame initialFrame)) *
  (targetBloom Scenario.oneSecondFrame - currentBloomRef initialFrame) < 0.
Proof.
  refine (proj1 (@smoother_long_frame_overshoots Scenario.oneSecondFrame
                   initialFrame _) _).
  - unfold targetBloom. simpl. intros H. lra.
  - simpl. lra.
Defined.

(** X4.  While the points object is mounted and the rotation speed is the
    same in every frame, the accumulated rotation is the start angle plus
    the speed times the total frame time; frames on which the object is not
    mounted do not rotate it. *)
Theorem rotation_accumulates (speed : R) (inps : list FrameInput)
        (st : FrameState) :
  Forall (fun inp => rotationSpeed (config inp) = speed) inps ->
  (Forall (fun inp => pointsRef inp = true) inps ->
   rotation_y (runFrames inps st) = rotation_y st + speed * totalTime inps) /\
  (Forall (fun inp => pointsRef inp = false) inps ->
   rotation_y (runFrames inps st) = rotation_y st).
Proof.
  intros Hspeed. revert st.
  induction Hspeed as [| inp inps Hs _ IH]; intros st.
  - cbn [runFrames fold_left totalTime fold_right]. split; intros _; ring.
  - rewrite runFrames_cons. destruct (IH (useFrame inp st)) as [IHon IHoff].
    split; intros Hall; apply Forall_cons_iff in Hall;
      destruct Hall as [Hp Hrest].
    + rewrite (IHon Hrest). cbn [totalTime fold_right].
      fold (totalTime inps). unfold useFrame. cbn [rotation_y].
      rewrite Hp, Hs. ring.
    + rewrite (IHoff Hrest). unfold useFrame. cbn [rotation_y].
      now rewrite Hp.
Qed.

Lemma rotation_accumulates_witness :
  rotation_y (runFrames [Scenario.quarterSecondFrame;
                         Scenario.quarterSecondFrame] initialFrame) =
  rotation_y initialFrame +
  0.1 * totalTime [Scenario.quarterSecondFrame; Scenario.quarterSecondFrame].
Proof.
  refine (proj1 (@rotation_accumulates 0.1
                   [Scenario.quarterSecondFrame; Scenario.quarterSecondFrame]
                   initialFrame _) _);
    repeat constructor.
Defined.

End SmootherRuns.

(** ** The vertex shader *)

Section VertexShader.
Import THREE LotusParticles.

Lemma smoothstep_low (x : R) : x <= 0 -> GLSL.smoothstep 0.0 1.0 x = 0.
Proof.
  intros Hx. unfold GLSL.smoothstep, GLSL.clamp.
  replace ((x - 0.0) / (1.0 - 0.0)) with x by lra.
  rewrite Rmax_right by lra. rewrite Rmin_left by lra. ring.
Qed.

Lemma smoothstep_high (x : R) : 1 <= x -> GLSL.smoothstep 0.0 1.0 x = 1.
Proof.
  intros Hx. unfold GLSL.smoothstep, GLSL.clamp.
  replace ((x - 0.0) / (1.0 - 0.0)) with x by lra.
  rewrite Rmax_left by lra. rewrite Rmin_right by lra. ring.
Qed.

Lemma clamp_unit_cases (x : R) :
  (x <= 0 /\ GLSL.clamp x 0 1 = 0) \/
  (0 <= x <= 1 /\ GLSL.clamp x 0 1 = x) \/
  (1 <= x /\ GLSL.clamp x 0 1 = 1).
Proof.
  unfold GLSL.clamp.
  destruct (Rle_or_lt x 0) as [H0 | H0].
  - left. split; [assumption |].
    rewrite Rmax_right by lra. now rewrite Rmin_left by lra.
  - destruct (Rle_or_lt x 1) as [H1 | H1].
    + right. left. split; [lra |].
      rewrite Rmax_left by lra. now rewrite Rmin_left by lra.
    + right. right. split; [lra |].
      rewrite Rmax_left by lra. now rewrite Rmin_right by lra.
Qed.

Lemma smoothstep_of_clamp (x : R) :
  GLSL.smoothstep 0.0 1.0 (GLSL.clamp x 0 1) = GLSL.smoothstep 0.0 1.0 x.
Proof.
  destruct (clamp_unit_cases x) as [[Hx ->] | [[Hx ->] | [Hx ->]]].
  - rewrite (smoothstep_low Hx). apply smoothstep_low. lra.
  - reflexivity.
  - rewrite (smoothstep_high Hx). apply smoothstep_high. lra.
Qed.

(** X5.  The vertex shader reads the two amounts only through
    [smoothstep(0.0, 1.0, .)]: its output for any values of [uBloomState]
    and [uFormState] is its output for these values clamped to [[0,1]], so
    an amount outside [[0,1]] is rendered like the nearer end. *)
Theorem shader_reads_clamped_amounts (u : Uniforms)
        (position aInfo color aRandomPos : Vector3) :
  vertex_main u position aInfo color aRandomPos =
  vertex_main (mkUniforms (uTime u) (uSize u) (uBloomIntensity u)
                          (GLSL.clamp (uBloomState u) 0 1)
                          (GLSL.clamp (uFormState u) 0 1))
              position aInfo color aRandomPos.
Proof.
  unfold vertex_main, flowerPos_branch, currentAngle, cycle.
  cbn [uTime uSize uBloomIntensity uBloomState uFormState].
  now rewrite !smoothstep_of_clamp.
Qed.

(** X6.  The varying [vAlpha] always lies in [[0.3, 1]], whatever the
    uniforms and attributes. *)
Theorem vertex_alpha_range (u : Uniforms)
        (position aInfo color aRandomPos : Vector3) :
  0.3 <= vAlpha (vertex_main u position aInfo color aRandomPos) <= 1.
Proof.
  unfold vertex_main, cycle. cbn [vAlpha].
  pose proof (smoothstep_range (uBloomState u)) as Hb.
  pose proof (smoothstep_range (uFormState u)) as Hf.
  set (c := GLSL.smoothstep 0.0 1.0 (uBloomState u)) in *.
  set (f := GLSL.smoothstep 0.0 1.0 (uFormState u)) in *.
  split; nra.
Qed.

Lemma mix_at_one (x y : R) : GLSL.mix x y 1 = y.
Proof. unfold GLSL.mix. ring. Qed.

Lemma mix_at_zero (x y : R) : GLSL.mix x y 0 = x.
Proof. unfold GLSL.mix. ring. Qed.

(** X7.  Once the form amount has reached one, the final position does not
    depend on the chaos position; while it is at most zero, the final
    position depends neither on the formed position nor on the bloom amount,
    and stays within [1.5] of the chaos position on every axis. *)
Theorem form_amount_selects_position (u : Uniforms)
        (position aInfo color aRandomPos : Vector3) :
  (1 <= uFormState u ->
   forall aRandomPos',
     finalPos (vertex_main u position aInfo color aRandomPos) =
     finalPos (vertex_main u position aInfo color aRandomPos')) /\
  (uFormState u <= 0 ->
   (forall position' bloom',
       finalPos (vertex_main u position aInfo color aRandomPos) =
       finalPos (vertex_main
                   (mkUniforms (uTime u) (uSize u) (uBloomIntensity u)
                               bloom' (uFormState u))
                   position' aInfo color aRandomPos)) /\
   let p := finalPos (vertex_main u position aInfo color aRandomPos) in
   Rabs (vx p - vx aRandomPos) <= 1.5 /\
   Rabs (vy p - vy aRandomPos) <= 1.5 /\
   Rabs (vz p - vz aRandomPos) <= 1.5).
Proof.
  split; intros Hform.
  - intros aRandomPos'. unfold vertex_main. cbn [finalPos].
    rewrite (smoothstep_high Hform). unfold GLSL.mix3.
    now rewrite !mix_at_one.
  - split.
    + intros position' bloom'. unfold vertex_main.
      cbn [finalPos uTime uFormState].
      rewrite (smoothstep_low Hform). unfold GLSL.mix3.
      now rewrite !mix_at_zero.
    + unfold vertex_main. cbn [finalPos].
      rewrite (smoothstep_low Hform). unfold GLSL.mix3.
      rewrite !mix_at_zero. cbn [vx vy vz].
      pose proof (SIN_bound (uTime u * 0.4 + vx aInfo * 10.0)).
      pose proof (COS_bound (uTime u * 0.3 + vy aInfo * 10.0)).
      pose proof (SIN_bound (uTime u * 0.5 + vz aInfo * 10.0)).
      repeat split; apply Rabs_le; lra.
Qed.

Lemma form_amount_selects_position_witness :
  finalPos (vertex_main initialUniforms (vec3 1 2 3) (vec3 0 0.2 0)
                        (vec3 1 1 1) (vec3 5 5 5)) =
  finalPos (vertex_main (mkUniforms 0 0.0 1.0 1 0.0) (vec3 0 0 0)
                        (vec3 0 0.2 0) (vec3 1 1 1) (vec3 5 5 5)).
Proof.
  assert (H0 : uFormState initialUniforms <= 0) by (simpl; lra).
  exact (proj1 (proj2 (@form_amount_selects_position initialUniforms
                   (vec3 1 2 3) (vec3 0 0.2 0) (vec3 1 1 1) (vec3 5 5 5)) H0)
               (vec3 0 0 0) 1).
Defined.

(** X8.  For a petal particle the branch is a rigid motion: apart from the
    vertical shift by [layerYOffset - 1.5], the point keeps its distance
    from the origin, at every bloom amount. *)
Theorem petal_branch_is_rigid (u : Uniforms) (position aInfo : Vector3) :
  isAura aInfo = false ->
  let q := flowerPos_branch u position aInfo in
  vx q * vx q + (vy q - vz aInfo + 1.5) * (vy q - vz aInfo + 1.5) +
  vz q * vz q =
  vx position * vx position + vy position * vy position +
  vz position * vz position.
Proof.
  intros Haura. unfold flowerPos_branch. rewrite Haura. cbn [negb vx vy vz].
  set (a := currentAngle aInfo (uBloomState u)).
  pose proof (sin2_cos2 a) as Ha.
  pose proof (sin2_cos2 (vx aInfo)) as Hy.
  unfold Rsqr in Ha, Hy.
  set (c := cos a) in *. set (s := sin a) in *.
  set (cy := cos (vx aInfo)) in *. set (sy := sin (vx aInfo)) in *.
  set (Y := vy position * c - vz position * s).
  set (Z := vy position * s + vz position * c).
  assert (Hyz : Y * Y + Z * Z =
                vy position * vy position + vz position * vz position).
  { subst Y Z.
    replace ((vy position * c - vz position * s) *
             (vy position * c - vz position * s) +
             (vy position * s + vz position * c) *
             (vy position * s + vz position * c))
      with ((vy position * vy position + vz position * vz position) *
            (s * s + c * c)) by ring.
    rewrite Ha. ring. }
  replace ((vx position * cy - Z * sy) * (vx position * cy - Z * sy) +
           (Y + vz aInfo - 1.5 - vz aInfo + 1.5) *
           (Y + vz aInfo - 1.5 - vz aInfo + 1.5) +
           (vx position * sy + Z * cy) * (vx position * sy + Z * cy))
    with ((vx position * vx position + Z * Z) * (sy * sy + cy * cy) + Y * Y)
    by ring.
  rewrite Hy, Rmult_1_r. clearbody Y Z. lra.
Qed.

Lemma petal_branch_is_rigid_witness :
  let q := flowerPos_branch initialUniforms (vec3 1 2 3) (vec3 0 0.2 0) in
  vx q * vx q + (vy q - 0 + 1.5) * (vy q - 0 + 1.5) + vz q * vz q =
  1 * 1 + 2 * 2 + 3 * 3.
Proof.
  assert (Haura : isAura (vec3 0 0.2 0) = false).
  { apply ltb_false. simpl. lra. }
  exact (@petal_branch_is_rigid initialUniforms (vec3 1 2 3) (vec3 0 0.2 0)
           Haura).
Defined.

(** X9.  An aura particle ignores the bloom amount: it only drifts, by at
    most [0.1] along x and [0.3] along y, and keeps its z. *)
Theorem aura_branch_drifts (u : Uniforms) (position aInfo : Vector3) :
  isAura aInfo = true ->
  let q := flowerPos_branch u position aInfo in
  (forall bloom',
      flowerPos_branch (mkUniforms (uTime u) (uSize u) (uBloomIntensity u)
                                   bloom' (uFormState u)) position aInfo = q) /\
  Rabs (vx q - vx position) <= 0.1 /\
  Rabs (vy q - vy position) <= 0.3 /\
  vz q = vz position.
Proof.
  intros Haura. unfold flowerPos_branch. rewrite Haura.
  cbn [negb vx vy vz uTime].
  pose proof (SIN_bound (uTime u * 0.5 + vx position * 2.0)).
  pose proof (COS_bound (uTime u * 0.3 + vz position)).
  split; [reflexivity |].
  split; [apply Rabs_le; lra |]. split; [apply Rabs_le; lra | reflexivity].
Qed.

Lemma aura_branch_drifts_witness :
  vz (flowerPos_branch initialUniforms (vec3 1 2 3) (vec3 0 (-1.0) 0)) = 3.
Proof.
  assert (Haura : isAura (vec3 0 (-1.0) 0) = true).
  { apply ltb_true. simpl. lra. }
  exact (proj2 (proj2 (proj2 (@aura_branch_drifts initialUniforms (vec3 1 2 3)
                                (vec3 0 (-1.0) 0) Haura)))).
Defined.

End VertexShader.

(** ** The fragment shader *)

Section FragmentShaderFacts.
Import THREE FragmentShader.

Lemma pow15_range (x : R) : 0 <= x <= 1 -> 0 <= pow x 1.5 <= 1.
Proof.
  intros [H0 H1]. unfold pow. destruct (Rlt_dec 0 x) as [Hpos | _]; [| lra].
  split.
  - unfold Rpower. left. apply exp_pos.
  - apply Rle_trans with (Rpower 1 1.5).
    + apply Rle_Rpower_l; lra.
    + unfold Rpower. rewrite ln_1, Rmult_0_r, exp_0. lra.
Qed.

Lemma pow15_monotone (x y : R) : 0 <= x <= y -> pow x 1.5 <= pow y 1.5.
Proof.
  intros [Hx Hxy]. unfold pow.
  destruct (Rlt_dec 0 x) as [Hpos | Hzero].
  - destruct (Rlt_dec 0 y) as [_ | Hy]; [| lra].
    apply Rle_Rpower_l; lra.
  - destruct (Rlt_dec 0 y) as [_ | _]; [| lra].
    unfold Rpower. left. apply exp_pos.
Qed.

Lemma pow15_one : pow 1 1.5 = 1.
Proof.
  unfold pow. destruct (Rlt_dec 0 1) as [_ | H]; [| lra].
  unfold Rpower. rewrite ln_1, Rmult_0_r. apply exp_0.
Qed.

(** The distance of the fragment from the centre of the point sprite. *)
Lemma length2_nonneg (v : vec2) : 0 <= length2 v.
Proof. apply sqrt_pos. Qed.

Lemma fragment_kept (uBloomIntensity : R) (vColor : Vector3) (vAlpha : R)
      (pc : vec2) :
  let dist := length2 (mkVec2 (px pc - 0.5) (py pc - 0.5)) in
  dist <= 0.5 ->
  fragment_main uBloomIntensity vColor vAlpha pc =
  Some (mkVec4 (vx vColor * uBloomIntensity) (vy vColor * uBloomIntensity)
               (vz vColor * uBloomIntensity)
               (pow (1.0 - dist * 2.0) 1.5 * vAlpha)).
Proof.
  intros dist Hd. unfold fragment_main. fold dist.
  destruct (JS.gtb dist 0.5) eqn:E; [| reflexivity].
  apply gtb_true in E. lra.
Qed.

(** X10.  A fragment is discarded exactly when it lies farther than [0.5]
    from the centre of the point sprite.  A kept fragment has the particle
    colour times the bloom intensity and, for a non-negative [vAlpha], an
    alpha between [0] and [vAlpha] that does not grow with the distance: it
    is [vAlpha] at the centre and [0] on the rim. *)
Theorem fragment_soft_disc (uBloomIntensity : R) (vColor : Vector3)
        (vAlpha : R) (pc pc' : vec2) :
  0 <= vAlpha ->
  let dist := length2 (mkVec2 (px pc - 0.5) (py pc - 0.5)) in
  let dist' := length2 (mkVec2 (px pc' - 0.5) (py pc' - 0.5)) in
  (fragment_main uBloomIntensity vColor vAlpha pc = None <-> 0.5 < dist) /\
  (forall out,
      fragment_main uBloomIntensity vColor vAlpha pc = Some out ->
      cr out = vx vColor * uBloomIntensity /\
      cg out = vy vColor * uBloomIntensity /\
      cb out = vz vColor * uBloomIntensity /\
      0 <= ca out <= vAlpha /\
      (dist = 0 -> ca out = vAlpha) /\
      (dist = 0.5 -> ca out = 0) /\
      (forall out',
          fragment_main uBloomIntensity vColor vAlpha pc' = Some out' ->
          dist <= dist' -> ca out' <= ca out)).
Proof.
  intros Halpha dist dist'.
  pose proof (length2_nonneg (mkVec2 (px pc - 0.5) (py pc - 0.5))) as Hd0.
  fold dist in Hd0.
  split.
  - unfold fragment_main. fold dist.
    destruct (JS.gtb dist 0.5) eqn:E.
    + apply gtb_true in E. split; [intros _; lra | reflexivity].
    + apply gtb_false in E. split; [discriminate | lra].
  - intros out Hout.
    destruct (Rle_or_lt dist 0.5) as [Hin | Hout'].
    + rewrite (@fragment_kept uBloomIntensity vColor vAlpha pc Hin) in Hout.
      fold dist in Hout. injection Hout as <-. cbn [cr cg cb ca].
      assert (Hs : 0 <= 1.0 - dist * 2.0 <= 1) by lra.
      pose proof (pow15_range Hs) as Hp.
      repeat split; try nra.
      * intros ->. replace (1.0 - 0 * 2.0) with 1 by lra.
        rewrite pow15_one. ring.
      * intros ->. replace (1.0 - 0.5 * 2.0) with 0 by lra.
        unfold pow. destruct (Rlt_dec 0 0); [lra | ring].
      * intros out' Hout' Hle.
        destruct (Rle_or_lt dist' 0.5) as [Hin' | Hno].
        -- rewrite (@fragment_kept uBloomIntensity vColor vAlpha pc' Hin')
             in Hout'.
           fold dist' in Hout'. injection Hout' as <-. cbn [ca].
           apply Rmult_le_compat_r; [assumption |].
           apply pow15_monotone. lra.
        -- unfold fragment_main in Hout'. fold dist' in Hout'.
           apply gtb_true in Hno. rewrite Hno in Hout'. discriminate.
    + unfold fragment_main in Hout. fold dist in Hout.
      apply gtb_true in Hout'. rewrite Hout' in Hout. discriminate.
Qed.

Lemma fragment_soft_disc_witness :
  fragment_main 1.5 (vec3 1 1 1) 1 (mkVec2 2 2) = None.
Proof.
  assert (H1 : 0 <= 1) by lra.
  apply (proj1 (@fragment_soft_disc 1.5 (vec3 1 1 1) 1 (mkVec2 2 2)
                  (mkVec2 2 2) H1)).
  unfold length2. cbn [px py].
  replace ((2 - 0.5) * (2 - 0.5) + (2 - 0.5) * (2 - 0.5))
    with (Rsqr 1.5 + Rsqr 1.5) by (unfold Rsqr; lra).
  assert (Hs : sqrt (Rsqr 1.5) <= sqrt (Rsqr 1.5 + Rsqr 1.5)).
  { apply sqrt_le_1_alt. pose proof (Rle_0_sqr 1.5). lra. }
  rewrite sqrt_Rsqr in Hs by lra. lra.
Defined.

End FragmentShaderFacts.

(** ** The petal surface *)

Section PetalSurface.
Import THREE LotusParticles.

Lemma Math_pow_cube (x : R) : JS.Math_pow x 3.0 = x ^ 3.
Proof. replace 3.0 with 3 by lra. apply Math_pow_3. Qed.

Lemma Math_pow_square (x : R) : JS.Math_pow x 2.0 = x ^ 2.
Proof. replace 2.0 with 2 by lra. apply Math_pow_2. Qed.

(** The point of the surface, with the powers written as products. *)
Lemma calculatePetalShape_point (u v layerIndex totalLayers : R) :
  let scale := 2.5 + layerIndex / totalLayers * 4 in
  fst (calculatePetalShape u v layerIndex totalLayers) =
  vec3 ((v - 0.5) * sin (u * PI) * (1 - u ^ 3) * scale * 0.9)
       (u * scale * 2.2)
       (((Rabs (v - 0.5) * 2) ^ 2 * u * 1.5 + sin (u * PI * 0.4))
        * scale * 0.3).
Proof.
  intros scale. unfold calculatePetalShape. cbn [fst].
  rewrite Math_pow_cube, Math_pow_square.
  unfold JS.Math_sin, JS.Math_PI, JS.Math_abs. subst scale.
  f_equal; lra.
Qed.

(** X11.  Every petal starts at the origin of its own frame and ends in a
    point on its midline: at [u = 0] the surface point is [(0, 0, 0)] and at
    [u = 1] its width is [0], for every [v] and every layer. *)
Theorem petal_base_and_tip (v layerIndex totalLayers : R) :
  fst (calculatePetalShape 0 v layerIndex totalLayers) = vec3 0 0 0 /\
  vx (fst (calculatePetalShape 1 v layerIndex totalLayers)) = 0.
Proof.
  rewrite !calculatePetalShape_point. cbv zeta. cbn [vx]. split.
  - rewrite !Rmult_0_l, sin_0. f_equal; ring.
  - rewrite Rmult_1_l, sin_PI. ring.
Qed.

(** X12.  The petal is mirror symmetric about its midline [v = 0.5]:
    replacing [v] by [1 - v] negates the width and keeps height, depth and
    opening angle. *)
Theorem petal_mirror_symmetry (u v layerIndex totalLayers : R) :
  let p := fst (calculatePetalShape u v layerIndex totalLayers) in
  let p' := fst (calculatePetalShape u (1 - v) layerIndex totalLayers) in
  vx p' = - vx p /\ vy p' = vy p /\ vz p' = vz p /\
  snd (calculatePetalShape u (1 - v) layerIndex totalLayers) =
  snd (calculatePetalShape u v layerIndex totalLayers).
Proof.
  cbv zeta. rewrite !calculatePetalShape_point. cbv zeta. cbn [vx vy vz].
  replace (1 - v - 0.5) with (- (v - 0.5)) by lra.
  rewrite Rabs_Ropp. repeat split; ring.
Qed.

Lemma unit_cube_range (u : R) : 0 <= u <= 1 -> 0 <= 1 - u ^ 3 <= 1.
Proof.
  intros [H0 H1].
  assert (0 <= u * u <= 1) by nra.
  assert (0 <= u * (u * u) <= 1) by nra.
  simpl. lra.
Qed.

Lemma petal_point_bounds (u v layerIndex totalLayers : R) :
  0 <= u <= 1 ->
  0 <= v <= 1 ->
  0 <= layerIndex / totalLayers ->
  let scale := 2.5 + layerIndex / totalLayers * 4 in
  let p := fst (calculatePetalShape u v layerIndex totalLayers) in
  Rabs (vx p) <= 0.45 * scale /\
  0 <= vy p <= 2.2 * scale /\
  0 <= vz p <= 0.75 * scale.
Proof.
  intros Hu Hv Hratio scale p. subst p.
  rewrite calculatePetalShape_point. fold scale. cbn [vx vy vz].
  assert (Hscale : 2.5 <= scale) by (subst scale; lra).
  assert (Hsin : 0 <= sin (u * PI) <= 1).
  { pose proof PI_RGT_0. split; [| apply SIN_bound].
    apply sin_ge_0; nra. }
  assert (Hsin' : 0 <= sin (u * PI * 0.4) <= 1).
  { pose proof PI_RGT_0. split; [| apply SIN_bound].
    apply sin_ge_0; nra. }
  pose proof (unit_cube_range Hu) as Htaper.
  assert (Hside : Rabs (v - 0.5) <= 0.5) by (apply Rabs_le; lra).
  pose proof (Rabs_pos (v - 0.5)) as Hside0.
  set (w := Rabs (v - 0.5)) in *.
  set (sn := sin (u * PI)) in *. set (sl := sin (u * PI * 0.4)) in *.
  set (t := 1 - u ^ 3) in *.
  split; [| split].
  - replace ((v - 0.5) * sn * t * scale * 0.9)
      with ((v - 0.5) * (sn * t * scale * 0.9)) by ring.
    rewrite Rabs_mult. fold w.
    assert (Hst : 0 <= sn * t <= 1) by nra.
    assert (Hk : 0 <= sn * t * scale * 0.9 <= scale * 0.9) by nra.
    rewrite (Rabs_pos_eq (sn * t * scale * 0.9)) by lra.
    nra.
  - nra.
  - assert (Hw2 : 0 <= (w * 2) ^ 2 <= 1) by (simpl; nra).
    assert (Hcurl : 0 <= (w * 2) ^ 2 * u * 1.5 <= 1.5) by nra.
    nra.
Qed.

(** X13.  For [u] and [v] in [[0,1]] and a non-negative layer ratio, the
    surface point lies in a box that scales with the layer:
    [|x| <= 0.45 * scale], [0 <= y <= 2.2 * scale], [0 <= z <= 0.75 * scale]
    with [scale = 2.5 + 4 * layerIndex / totalLayers]. *)
Theorem petal_point_in_box (u v layerIndex totalLayers : R) :
  0 <= u <= 1 ->
  0 <= v <= 1 ->
  0 <= layerIndex / totalLayers ->
  let scale := 2.5 + layerIndex / totalLayers * 4 in
  let p := fst (calculatePetalShape u v layerIndex totalLayers) in
  Rabs (vx p) <= 0.45 * scale /\
  0 <= vy p <= 2.2 * scale /\
  0 <= vz p <= 0.75 * scale.
Proof. apply petal_point_bounds. Qed.

Lemma petal_point_in_box_witness :
  0 <= vy (fst (calculatePetalShape 0.5 0.5 0 6)) <= 2.2 * (2.5 + 0 / 6 * 4).
Proof.
  assert (Hu : 0 <= 0.5 <= 1) by lra.
  assert (Hr : 0 <= 0 / 6) by lra.
  exact (proj1 (proj2 (@petal_point_in_box 0.5 0.5 0 6 Hu Hu Hr))).
Defined.

End PetalSurface.

(** ** The classifier on incomplete hands, and runs of the inference loop *)

Section ClassifierEdges.
Import HandTracker Signals Runs.

(** X14.  The classifier throws exactly when the hand has fewer than 21
    landmarks.  On a fresh frame showing such a hand, [predict] has already
    reported the hand as present, reports no bloom value and does not
    request the next animation frame: the inference loop stops. *)
Theorem classifier_throws_on_short_hand (landmarks : list Landmark) :
  (isHandOpen landmarks = None <-> (List.length landmarks < 21)%nat) /\
  ((List.length landmarks < 21)%nat ->
   forall env last v rest,
     videoRef env = Some v ->
     ready env = true ->
     currentTime v <> last ->
     detected env = Some (landmarks :: rest) ->
     predict env last =
     mkOutcome (currentTime v)
               [ DetectForVideo (currentTime v) (Date_now env);
                 SetHandDetected true; PresenceChange true ]
               true).
Proof.
  assert (Hiff : isHandOpen landmarks = None <->
                 (List.length landmarks < 21)%nat).
  { unfold isHandOpen, extendedCount.
    do 21 (destruct landmarks as [| ? landmarks];
           [split; [intros _; simpl; lia | reflexivity] |]).
    cbn -[JS.gtb dist Nat.leb].
    split; [discriminate | intros H; cbn [List.length] in H; lia]. }
  split; [exact Hiff |].
  intros Hshort env last v rest Hv Hr Ht Hd.
  apply Hiff in Hshort. unfold ready in Hr. unfold predict.
  rewrite Hv in *. rewrite Hr. apply neqb_true in Ht.
  now rewrite Ht, Hd, Hshort.
Qed.

Lemma classifier_throws_on_short_hand_witness :
  thrown (predict (mkEnv true (Some (mkVideo 4 0.5)) 1000
                         (Some [[Scenario.origin; Scenario.near]])) (-1))
  = true.
Proof.
  assert (Hshort : (List.length [Scenario.origin; Scenario.near] < 21)%nat)
    by (simpl; lia).
  assert (Ht : currentTime (mkVideo 4 0.5) <> -1) by (simpl; lra).
  rewrite (proj2 (classifier_throws_on_short_hand
                    [Scenario.origin; Scenario.near]) Hshort
                 (mkEnv true (Some (mkVideo 4 0.5)) 1000
                        (Some [[Scenario.origin; Scenario.near]]))
                 (-1) (mkVideo 4 0.5) [] eq_refl eq_refl Ht eq_refl).
  reflexivity.
Defined.

(** The events of [predict] never touch the recorded timestamp. *)
Lemma apply_events_lastVideoTime (evs : list Event) (st : State) :
  lastVideoTimeRef (fold_left apply_event evs st) = lastVideoTimeRef st.
Proof.
  revert st. induction evs as [| e evs IH]; intros st; [reflexivity |].
  cbn [fold_left]. rewrite IH. now destruct e.
Qed.

Lemma predict_fresh_last (env : Env) (last : R) (v : Video) :
  videoRef env = Some v ->
  ready env = true ->
  currentTime v <> last ->
  lastVideoTime' (predict env last) = currentTime v.
Proof.
  intros Hv Hr Ht. unfold ready in Hr. unfold predict.
  rewrite Hv in *. rewrite Hr. apply neqb_true in Ht. rewrite Ht.
  destruct (detected env) as [[| landmarks others] |];
    [| destruct (isHandOpen landmarks) |]; reflexivity.
Qed.

(** X16.  Running [predict] again on the same video frame changes nothing:
    a tick is idempotent, in every environment and state. *)
Theorem tick_idempotent (env : Env) (st : State) :
  tick env (tick env st) = tick env st.
Proof.
  destruct (ready env) eqn:Hr.
  - destruct (videoRef env) as [v |] eqn:Hv.
    + destruct (Req_dec_T (currentTime v) (lastVideoTimeRef st)) as [Heq | Hne].
      * destruct (@tick_idle env st) as [Hst _]; [right; eauto |].
        now rewrite !Hst.
      * apply tick_idle. right. exists v. split; [exact Hv |].
        unfold tick. rewrite apply_events_lastVideoTime. cbn [lastVideoTimeRef].
        symmetry. now apply predict_fresh_last.
    + unfold ready in Hr. rewrite Hv in Hr.
      rewrite andb_false_r in Hr. discriminate.
  - apply tick_idle. now left.
Qed.

Lemma consistent_tick (env : Env) (st : State) :
  consistent st -> consistent (tick env st).
Proof.
  intros [Hd Hb]. unfold tick, predict.
  destruct (videoRef env) as [v |]; [| now destruct st].
  destruct (landmarkerRef env && (2 <=? readyState v)%Z);
    [| now destruct st].
  destruct (JS.neqb (currentTime v) (lastVideoTimeRef st));
    [| now destruct st].
  destruct (detected env) as [[| landmarks others] |].
  - split; [reflexivity | discriminate].
  - destruct (isHandOpen landmarks); split; cbn; auto.
  - split; [reflexivity | discriminate].
Qed.

(** X17.  From start-up and through any sequence of inference ticks, the
    component's [handDetected] equals the hand-present signal, and
    hand-open is never true while hand-present is false. *)
Theorem signals_stay_consistent (envs : list Env) :
  let st := runTicks envs initialState in
  handDetected st = isHandPresent st /\
  (isBlooming st = true -> isHandPresent st = true).
Proof.
  cbv zeta. change (consistent (runTicks envs initialState)).
  assert (H0 : consistent initialState) by (split; [reflexivity | discriminate]).
  revert H0. generalize initialState.
  induction envs as [| env envs IH]; intros st Hst; [exact Hst |].
  apply (IH (tick env st)). now apply consistent_tick.
Qed.

End ClassifierEdges.

(** ** Sequences of swipes *)

Section SwipeRuns.
Import App Spec Runs.

(** For a palette of distinct colours with another colour to offer, a swipe
    returns one of the other colours. *)
Lemma swipe_some (palette : list string) (prev : string) (random : R) :
  NoDup palette ->
  (2 <= List.length palette)%nat ->
  In prev palette ->
  0 <= random < 1 ->
  exists c, swipe palette random prev = Some c /\ In c palette /\ c <> prev.
Proof.
  intros Hnd Hlen Hin Hrand.
  pose proof (@others_length palette prev Hnd Hin) as Hothers.
  assert (Hpos : (0 < List.length (others palette prev))%nat) by lia.
  pose proof (@floor_scaled_range random _ Hpos Hrand) as Hrange.
  unfold swipe, JS.index. fold (others palette prev).
  destruct (Z.ltb_spec
              (JS.Math_floor
                 (random * INR (List.length (others palette prev)))) 0);
    [lia |].
  destruct (nth_error (others palette prev)
              (Z.to_nat (JS.Math_floor
                 (random * INR (List.length (others palette prev))))))
    as [c |] eqn:E.
  - exists c. split; [reflexivity |].
    apply others_In. exact (nth_error_In _ _ E).
  - apply nth_error_None in E. lia.
Qed.

Lemma runSwipes_cons (palette : list string) (random : R)
      (randoms : list R) (active : option string) :
  runSwipes palette (random :: randoms) active =
  runSwipes palette randoms (swipeState palette random active).
Proof. reflexivity. Qed.

(** X18.  For a palette of at least two distinct colours, started on one of
    them and swiped any number of times with random values in [[0,1)], the
    active colour is always a palette colour (never [undefined]), and every
    single swipe changes it. *)
Theorem swipes_stay_in_palette (palette : list string) (start : string)
        (randoms : list R) :
  NoDup palette ->
  (2 <= List.length palette)%nat ->
  In start palette ->
  Forall (fun random => 0 <= random < 1) randoms ->
  (exists c, runSwipes palette randoms (Some start) = Some c /\
             In c palette) /\
  (forall random c, swipeState palette random (Some c) <> Some c).
Proof.
  intros Hnd Hlen Hin Hall. split.
  - revert start Hin.
    induction Hall as [| random randoms Hr _ IH]; intros start Hin.
    + exists start. now split.
    + rewrite runSwipes_cons. cbn [swipeState].
      destruct (@swipe_some palette start random Hnd Hlen Hin Hr)
        as (c & -> & Hc & _).
      now apply IH.
  - intros random c. cbn [swipeState]. apply swipe_not_prev.
Qed.

Lemma swipes_stay_in_palette_witness :
  exists c, runSwipes PALETTE [0.5; 0; 0.9] (Some "#ffa6c9"%string) = Some c /\
            In c PALETTE.
Proof.
  assert (Hlen : (2 <= List.length PALETTE)%nat) by (simpl; lia).
  assert (Hin : In "#ffa6c9"%string PALETTE) by (simpl; auto).
  assert (Hall : Forall (fun random => 0 <= random < 1) [0.5; 0; 0.9]).
  { repeat constructor; lra. }
  exact (proj1 (@swipes_stay_in_palette PALETTE "#ffa6c9" [0.5; 0; 0.9]
                  PALETTE_NoDup Hlen Hin Hall)).
Defined.

(** X19.  When the palette offers no colour other than the current one (it
    is empty or repeats that one colour), a swipe leaves the active colour
    [undefined], whatever [Math.random] returns. *)
Theorem swipe_without_alternative (palette : list string) (prev : string)
        (random : R) :
  Forall (fun c => c = prev) palette ->
  swipe palette random prev = None.
Proof.
  intros Hall.
  assert (Hnone : others palette prev = []).
  { unfold others. induction Hall as [| c rest -> _ IH]; [reflexivity |].
    cbn [filter]. now rewrite String.eqb_refl. }
  unfold swipe. fold (others palette prev). rewrite Hnone.
  cbn [List.length INR]. rewrite Rmult_0_r.
  unfold JS.Math_floor. rewrite (ZfloorZ 0). reflexivity.
Qed.

Lemma swipe_without_alternative_witness :
  swipe ["#ffffff"; "#ffffff"]%string 0.5 "#ffffff" = None.
Proof.
  apply swipe_without_alternative. repeat constructor.
Defined.

End SwipeRuns.

(** ** The configuration panel *)

Section Panel.
Import LotusParticles UIOverlay.

(** The generator reads the particle target only. *)
Lemma generate_reads_petalCount (random_seq : nat -> R)
      (Color_ofStyle : string -> THREE.Color)
      (Color_offsetHSL : THREE.Color -> R -> R -> R -> THREE.Color)
      (c1 c2 : LotusConfig) (activeColor : string) :
  petalCount c1 = petalCount c2 ->
  generate random_seq Color_ofStyle Color_offsetHSL c1 activeColor =
  generate random_seq Color_ofStyle Color_offsetHSL c2 activeColor.
Proof.
  intros H. unfold generate, generate_state, generate_body, particlesPerPetal.
  now rewrite H.
Qed.

(** X20.  A slider change writes its own field and no other: reading the
    changed key gives the new value, every other slider key, the particle
    target and the layer count are unchanged, and a second change of the
    same key overrides the first.  Consequently no slider change alters the
    generated geometry. *)
Theorem slider_change_is_local (key : SliderKey) (value : R)
        (config : LotusConfig) :
  read key (handleChange key value config) = value /\
  (forall key', key' <> key ->
                read key' (handleChange key value config) = read key' config) /\
  petalCount (handleChange key value config) = petalCount config /\
  layers (handleChange key value config) = layers config /\
  (forall value',
      handleChange key value' (handleChange key value config) =
      handleChange key value' config) /\
  (forall random_seq Color_ofStyle Color_offsetHSL activeColor,
      generate random_seq Color_ofStyle Color_offsetHSL
               (handleChange key value config) activeColor =
      generate random_seq Color_ofStyle Color_offsetHSL config activeColor).
Proof.
  split; [now destruct key |].
  split; [intros key' Hne; destruct key, key'; try reflexivity; congruence |].
  split; [now destruct key |]. split; [now destruct key |].
  split; [intros value'; now destruct key |].
  intros random_seq Color_ofStyle Color_offsetHSL activeColor.
  apply generate_reads_petalCount. now destruct key.
Qed.

End Panel.

(** ** Start-up of the model and the camera *)

Section StartUp.
Import Lifecycle.

(** X21.  After [setupMediaPipe] from the initial component state, however
    the promises settle: an error is set exactly when the vision files or
    the landmarker fail to load, or the camera is refused after they loaded
    with the component still mounted; whenever an error is set, [loading]
    is cleared and the [loadeddata] listener is not registered, so [predict]
    is never started; and whenever [predict] is started, the landmarker is
    stored, the stream is attached and no error is set. *)
Theorem startup_failure_modes (env : SetupEnv) :
  let c := setupMediaPipe env initialComponent in
  (error c <> None <->
   visionResolves env = false \/
   (mountedAfterVision env = true /\ landmarkerResolves env = false) \/
   (mountedAfterVision env = true /\ mountedAfterLandmarker env = true /\
    cameraResolves env = false)) /\
  (error c = Some "Failed to load AI model"%string <->
   visionResolves env = false \/
   (mountedAfterVision env = true /\ landmarkerResolves env = false)) /\
  (error c <> None ->
   loading c = false /\ listening c = false /\
   snd (loadeddata c) = false) /\
  (snd (loadeddata c) = true ->
   landmarkerStored c = true /\ streamAttached c = true /\
   error c = None /\ loading (fst (loadeddata c)) = false).
Proof.
  destruct env as [[] [] [] [] [] []]; cbv;
    repeat split; intros; try discriminate; try congruence; auto;
    repeat match goal with
           | H : _ \/ _ |- _ => destruct H
           | H : _ /\ _ |- _ => destruct H
           end; try discriminate; try congruence.
Qed.

End StartUp.

(** ** The generator, particle by particle *)

Section ParticleFacts.
Import THREE LotusParticles Growth Particles.

Variable random_seq : nat -> R.
Variable Color_ofStyle : string -> Color.
Variable Color_offsetHSL : Color -> R -> R -> R -> Color.

Lemma extended_refl (P : Particle -> Prop) (draws : nat) (s : GenState) :
  extended P draws s 0 s.
Proof.
  exists []. cbn [List.length map flatten flat_map].
  rewrite !app_nil_r. repeat split; auto; lia.
Qed.

Lemma extended_trans (P : Particle -> Prop) (draws : nat)
      (s0 s1 s2 : GenState) (k k' : nat) :
  extended P draws s0 k s1 -> extended P draws s1 k' s2 ->
  extended P draws s0 (k + k') s2.
Proof.
  intros (xs & Hlx & HPx & Hpx & Hcx & Hix & Hrx & Hdx)
         (ys & Hly & HPy & Hpy & Hcy & Hiy & Hry & Hdy).
  exists (xs ++ ys).
  split; [rewrite length_app; lia |].
  split; [apply Forall_app; now split |].
  rewrite !map_app, !flatten_app.
  split; [rewrite Hpy, Hpx; now rewrite app_assoc |].
  split; [rewrite Hcy, Hcx; now rewrite app_assoc |].
  split; [rewrite Hiy, Hix; now rewrite app_assoc |].
  split; [rewrite Hry, Hrx; now rewrite app_assoc | lia].
Qed.

Lemma extends_ret (P : Particle -> Prop) (draws : nat) (A : Type) (a : A) :
  extends P draws (ret a) 0.
Proof. intros s. apply extended_refl. Qed.

Lemma extends_bind (P : Particle -> Prop) (draws : nat) (A B : Type)
      (m : Gen A) (f : A -> Gen B) (k k' : nat) :
  extends P draws m k -> (forall a, extends P draws (f a) k') ->
  extends P draws (bind m f) (k + k').
Proof.
  intros Hm Hf s. unfold bind. specialize (Hm s).
  destruct (m s) as [a s']. cbn [snd] in Hm.
  eapply extended_trans; [exact Hm | apply Hf].
Qed.

Lemma extends_for_from (P : Particle -> Prop) (draws : nat)
      (body : nat -> Gen unit) (c : nat) :
  (forall i, extends P draws (body i) c) ->
  forall n i, extends P draws (for_from i n body) (n * c).
Proof.
  intros Hbody. induction n as [| n IH]; intros i.
  - apply extends_ret.
  - cbn [for_from Nat.mul]. apply extends_bind; [apply Hbody |].
    intros _. apply IH.
Qed.

(** A loop over [0 .. n-1] whose body may use that its index is below
    [n]. *)
Lemma extends_for_range (P : Particle -> Prop) (draws : nat)
      (body : nat -> Gen unit) (c n : nat) :
  (forall i, (i < n)%nat -> extends P draws (body i) c) ->
  extends P draws (for_range n body) (n * c).
Proof.
  intros Hbody. unfold for_range.
  assert (Hgen : forall m i, (i + m <= n)%nat ->
                             extends P draws (for_from i m body) (m * c)).
  { induction m as [| m IH]; intros i Him.
    - apply extends_ret.
    - cbn [for_from Nat.mul]. apply extends_bind.
      + apply Hbody. lia.
      + intros _. apply IH. lia. }
  apply Hgen. lia.
Qed.

Lemma extends_forEach_from (P : Particle -> Prop) (draws : nat) (A : Type)
      (body : A -> nat -> Gen unit) (c : A -> nat) :
  forall (arr : list A) (idx : nat),
    (forall j a, nth_error arr j = Some a ->
                 extends P draws (body a (idx + j)%nat) (c a)) ->
    extends P draws (forEach_from idx arr body) (list_sum (map c arr)).
Proof.
  induction arr as [| a rest IH]; intros idx Hbody.
  - apply extends_ret.
  - cbn [forEach_from map list_sum]. apply extends_bind.
    + specialize (Hbody 0%nat a eq_refl). now rewrite Nat.add_0_r in Hbody.
    + intros _. apply IH. intros j a' Hj.
      rewrite Nat.add_succ_comm. now apply (Hbody (S j)).
Qed.

Lemma clamp01 (x : R) : 0 <= JS.Math_max 0 (JS.Math_min 1 x) <= 1.
Proof.
  unfold JS.Math_max, JS.Math_min. split.
  - apply Rmax_l.
  - apply Rmax_lub; [lra | apply Rmin_l].
Qed.

Lemma vein_point_extends (t : Tones) (layer : Layer) (layerIdx p : nat)
      (pointsPerVein : Z) (vBase : R) (i : nat) :
  nth_error layersDef layerIdx = Some layer ->
  (p < count layer)%nat ->
  extends (PetalParticle random_seq t) 5
          (vein_point random_seq (colDeep t) (colMain t) (colLight t)
                      (colTip t) (colGold t) layerIdx
                      (INR p * ((JS.Math_PI * 2) / INR (count layer))
                       + offset layer)
                      (- (INR layerIdx * 0.25)) pointsPerVein vBase i) 1.
Proof.
  intros Hlayer Hp [d pos col info rand].
  cbv [vein_point bind Math_random drawn tempPos tempCol tempInfo tempRand].
  pose proof (clamp01 (INR i / IZR pointsPerVein +
                       (random_seq d - 0.5) * 0.02)) as Hu.
  pose proof (clamp01 (vBase + (random_seq (S d) - 0.5) * 0.05)) as Hv.
  set (u := JS.Math_max 0 (JS.Math_min 1
              (INR i / IZR pointsPerVein +
               (random_seq d - 0.5) * 0.02))) in *.
  set (v := JS.Math_max 0 (JS.Math_min 1
              (vBase + (random_seq (S d) - 0.5) * 0.05))) in *.
  destruct (calculatePetalShape u v (INR layerIdx)
              (INR (List.length layersDef))) as [[px py pz] maxAngle] eqn:E.
  cbv [push_pos push_info push_rand push_col bind snd
       drawn tempPos tempCol tempInfo tempRand vx vy vz].
  exists [mkParticle
            (vec3 px py pz)
            (let c := mixColor (colDeep t) (colMain t) (colLight t)
                               (colTip t) (colGold t) layerIdx u v in
             vec3 (r c) (g c) (b c))
            (vec3 (INR p * ((JS.Math_PI * 2) / INR (count layer))
                   + offset layer) maxAngle (- (INR layerIdx * 0.25)))
            (vec3 ((random_seq (S (S d)) - 0.5) * 30)
                  ((random_seq (S (S (S d))) - 0.5) * 20)
                  ((random_seq (S (S (S (S d)))) - 0.5) * 20))].
  split; [reflexivity |].
  split.
  - constructor; [| constructor].
    exists layerIdx, p, d, layer, u, v. rewrite E. cbn [fst snd p_pos p_info
      p_col p_rand].
    split; [reflexivity |]. split; [reflexivity |].
    split; [reflexivity |]. split; [reflexivity |].
    split; [exact Hlayer |]. split; [exact Hp |]. split; assumption.
  - cbn [map flatten flat_map p_pos p_col p_info p_rand vx vy vz app].
    split; [reflexivity |]. split; [reflexivity |].
    split; [reflexivity |]. split; [reflexivity |]. cbn [drawn]. lia.
Qed.

Lemma aura_point_extends (t : Tones) (i : nat) :
  extends (AuraParticle random_seq t) 7
          (aura_point random_seq (colMain t) (colLight t) i) 1.
Proof.
  intros [d pos col info rand].
  cbv [aura_point bind Math_random push_pos push_info push_rand push_col snd
       drawn tempPos tempCol tempInfo tempRand].
  exists [mkParticle
            (let radius := 2 + random_seq d * 8 in
             let theta := random_seq (S d) * JS.Math_PI * 2 in
             vec3 (radius * JS.Math_cos theta)
                  ((random_seq (S (S d)) - 0.5) * 10)
                  (radius * JS.Math_sin theta))
            (let auraCol :=
               if JS.gtb (random_seq (S (S (S (S (S (S d))))))) 0.5
               then colLight t else colMain t in
             vec3 (r auraCol * 0.6) (g auraCol * 0.6) (b auraCol * 0.6))
            (vec3 0 (-1.0) 0)
            (vec3 ((random_seq (S (S (S d))) - 0.5) * 40)
                  ((random_seq (S (S (S (S d)))) - 0.5) * 30)
                  ((random_seq (S (S (S (S (S d))))) - 0.5) * 40))].
  split; [reflexivity |].
  split.
  - constructor; [| constructor].
    exists d. cbn [p_pos p_info p_col p_rand].
    split; [reflexivity |]. split; [reflexivity |].
    split; reflexivity.
  - cbn [map flatten flat_map p_pos p_col p_info p_rand vx vy vz app].
    split; [reflexivity |]. split; [reflexivity |].
    split; [reflexivity |]. split; [reflexivity |]. cbn [drawn]. lia.
Qed.

Lemma petal_extends (t : Tones) (perPetal : Z) (layer : Layer)
      (layerIdx p : nat) :
  nth_error layersDef layerIdx = Some layer ->
  (p < count layer)%nat ->
  extends (PetalParticle random_seq t) 5
          (petal random_seq (colDeep t) (colMain t) (colLight t) (colTip t)
                 (colGold t) perPetal layer layerIdx p)
          (veins * (Z.to_nat (JS.Math_floor (IZR perPetal / INR veins)) * 1)).
Proof.
  intros Hlayer Hp. unfold petal. cbv zeta.
  apply extends_for_range. intros vIdx _.
  apply extends_for_range. intros i _.
  now apply vein_point_extends.
Qed.

(** The final state of the generator: the petal particles, then the aura
    particles, in all four arrays, and the random values consumed. *)
Lemma generate_particles (config : LotusConfig) (activeColor : string) :
  let s := generate_state random_seq Color_ofStyle Color_offsetHSL config
                          activeColor in
  let t := tones Color_ofStyle Color_offsetHSL activeColor in
  exists petals auras : list Particle,
    List.length petals = petalParticles config /\
    List.length auras = auraCount /\
    Forall (PetalParticle random_seq t) petals /\
    Forall (AuraParticle random_seq t) auras /\
    tempPos s = flatten (map p_pos (petals ++ auras)) /\
    tempCol s = flatten (map p_col (petals ++ auras)) /\
    tempInfo s = flatten (map p_info (petals ++ auras)) /\
    tempRand s = flatten (map p_rand (petals ++ auras)) /\
    drawn s = (5 * petalParticles config + 7 * auraCount)%nat.
Proof.
  intros s t. subst s. unfold generate_state, generate_body. cbv zeta.
  set (layerLoop := forEach layersDef _).
  assert (Hpetals : extends (PetalParticle random_seq t) 5 layerLoop
                            (petalParticles config)).
  { subst layerLoop. unfold forEach, petalParticles.
    apply extends_forEach_from with
      (c := fun l : Layer =>
              (count l * (veins * (Z.to_nat (pointsPerVein config) * 1)))%nat).
    intros j layer Hj. cbn [Nat.add].
    apply extends_for_range. intros p Hp.
    exact (@petal_extends t (particlesPerPetal config) layer j p Hj Hp). }
  assert (Haura : extends (AuraParticle random_seq t) 7
                          (for_range auraCount
                             (aura_point random_seq (colMain t) (colLight t)))
                          (auraCount * 1)).
  { apply extends_for_range. intros i _. apply aura_point_extends. }
  unfold bind.
  specialize (Hpetals emptyState).
  destruct (layerLoop emptyState) as [[] s1]. cbn [snd] in Hpetals.
  specialize (Haura s1).
  destruct Hpetals as (xs & Hlx & HPx & Hpx & Hcx & Hix & Hrx & Hdx).
  destruct Haura as (ys & Hly & HPy & Hpy & Hcy & Hiy & Hry & Hdy).
  cbn [emptyState drawn tempInfo tempPos tempCol tempRand app] in *.
  exists xs, ys. rewrite !map_app, !flatten_app.
  split; [exact Hlx |]. split; [lia |].
  split; [exact HPx |]. split; [exact HPy |].
  split; [change (tempPos (snd (for_range auraCount
             (aura_point random_seq (colMain t) (colLight t)) s1)) =
           flatten (map p_pos xs) ++ flatten (map p_pos ys));
          now rewrite Hpy, Hpx |].
  split; [change (tempCol (snd (for_range auraCount
             (aura_point random_seq (colMain t) (colLight t)) s1)) =
           flatten (map p_col xs) ++ flatten (map p_col ys));
          now rewrite Hcy, Hcx |].
  split; [change (tempInfo (snd (for_range auraCount
             (aura_point random_seq (colMain t) (colLight t)) s1)) =
           flatten (map p_info xs) ++ flatten (map p_info ys));
          now rewrite Hiy, Hix |].
  split; [change (tempRand (snd (for_range auraCount
             (aura_point random_seq (colMain t) (colLight t)) s1)) =
           flatten (map p_rand xs) ++ flatten (map p_rand ys));
          now rewrite Hry, Hrx |].
  change (drawn (snd (for_range auraCount
             (aura_point random_seq (colMain t) (colLight t)) s1)) =
          (5 * petalParticles config + 7 * auraCount)%nat).
  lia.
Qed.

Lemma attribute_flatten_map (f : Particle -> Vector3) (items : list Particle)
      (k : nat) :
  attribute (flatten (map f items)) k = option_map f (nth_error items k).
Proof. rewrite attribute_flatten. apply nth_error_map. Qed.

(** Particle [k] of the geometry: a petal particle below the petal count,
    an aura particle for the next [auraCount] indices, nothing beyond. *)
Lemma generated_particle (config : LotusConfig) (activeColor : string)
      (k : nat) :
  let geometry :=
    generate random_seq Color_ofStyle Color_offsetHSL config activeColor in
  let t := tones Color_ofStyle Color_offsetHSL activeColor in
  ((k < petalParticles config)%nat ->
   exists q, particleAt geometry k = Some q /\ PetalParticle random_seq t q) /\
  ((petalParticles config <= k < petalParticles config + auraCount)%nat ->
   exists q, particleAt geometry k = Some q /\ AuraParticle random_seq t q) /\
  ((petalParticles config + auraCount <= k)%nat ->
   particleAt geometry k = None).
Proof.
  intros geometry t.
  destruct (generate_particles config activeColor)
    as (xs & ys & Hlx & Hly & HPx & HPy & Hp & Hc & Hi & Hr & _).
  fold t in HPx, HPy.
  assert (Hat : particleAt geometry k = nth_error (xs ++ ys) k).
  { unfold particleAt, geometry, generate. cbn [positions colors infos randoms].
    rewrite Hp, Hc, Hi, Hr, !attribute_flatten_map.
    destruct (nth_error (xs ++ ys) k) as [[a b c d] |]; reflexivity. }
  rewrite Hat. split; [| split].
  - intros Hk. rewrite nth_error_app1 by lia.
    destruct (nth_error xs k) as [q |] eqn:E;
      [| apply nth_error_None in E; lia].
    exists q. split; [reflexivity |].
    rewrite Forall_forall in HPx. apply HPx. exact (nth_error_In _ _ E).
  - intros Hk. rewrite nth_error_app2 by lia.
    destruct (nth_error ys (k - List.length xs)) as [q |] eqn:E;
      [| apply nth_error_None in E; lia].
    exists q. split; [reflexivity |].
    rewrite Forall_forall in HPy. apply HPy. exact (nth_error_In _ _ E).
  - intros Hk. apply nth_error_None. rewrite length_app. lia.
Qed.

(** X22.  The generator consumes exactly five random values per petal
    particle and seven per aura particle: for a positive target,
    [3465 * floor(floor(target / 99) / 7) + 56000] values in all. *)
Theorem random_values_consumed (config : LotusConfig) (activeColor : string) :
  (0 < petalCount config)%Z ->
  Z.of_nat (drawn (generate_state random_seq Color_ofStyle Color_offsetHSL
                                  config activeColor)) =
  (3465 * (petalCount config / 99 / 7) + 56000)%Z.
Proof.
  intros Hpos.
  destruct (generate_particles config activeColor)
    as (_ & _ & _ & _ & _ & _ & _ & _ & _ & _ & Hd).
  rewrite Hd, Nat2Z.inj_add, !Nat2Z.inj_mul, auraCount_value.
  rewrite petalParticles_value by now apply pointsPerVein_nonneg.
  rewrite layerSum_value, pointsPerVein_div. lia.
Qed.

Lemma small_target_no_petals (config : LotusConfig) :
  (petalCount config < 693)%Z -> petalParticles config = 0%nat.
Proof.
  intros Hsmall.
  assert (Hppv : (pointsPerVein config <= 0)%Z).
  { rewrite pointsPerVein_div.
    assert (petalCount config / 99 < 7)%Z
      by (apply Z.div_lt_upper_bound; lia).
    assert (petalCount config / 99 / 7 < 1)%Z
      by (apply Z.div_lt_upper_bound; lia).
    lia. }
  unfold petalParticles, layersDef.
  replace (Z.to_nat (pointsPerVein config)) with 0%nat by lia.
  reflexivity.
Qed.

(** X23.  A target below 693 (zero and negative targets included) yields no
    petal particle at all: the geometry is exactly the 8000 aura particles,
    each marked by [maxOpenAngle = -1.0]. *)
Theorem small_target_only_aura (config : LotusConfig) (activeColor : string)
        (k : nat) :
  (petalCount config < 693)%Z ->
  let geometry :=
    generate random_seq Color_ofStyle Color_offsetHSL config activeColor in
  itemCount (positions geometry) = 8000 /\
  ((k < auraCount)%nat ->
   exists q, particleAt geometry k = Some q /\
             p_info q = vec3 0 (-1.0) 0 /\ isAura (p_info q) = true) /\
  ((auraCount <= k)%nat -> particleAt geometry k = None).
Proof.
  intros Hsmall geometry.
  pose proof (small_target_no_petals config Hsmall) as Hnone.
  destruct (generate_particles config activeColor)
    as (xs & ys & Hlx & Hly & _ & _ & Hp & _).
  destruct (generated_particle config activeColor k) as (_ & Haura & Hbeyond).
  fold geometry in Haura, Hbeyond. rewrite Hnone in *.
  split; [| split].
  - rewrite (@itemCount_triples _ auraCount).
    + now rewrite auraCount_value.
    + unfold geometry, generate. cbn [positions].
      rewrite Hp, flatten_length, length_map, length_app. lia.
  - intros Hk. destruct Haura as (q & Hq & n & _ & Hinfo & _); [lia |].
    exists q. split; [exact Hq |]. split; [exact Hinfo |].
    rewrite Hinfo. apply ltb_true. cbn [vy]. lra.
  - intros Hk. apply Hbeyond. lia.
Qed.

(** X24.  Every petal particle carries the metadata of one petal of the
    layer table: for some layer [layerIdx] of the table and some petal
    [p < count], its info triple is the petal's rotation
    [p * 2 pi / count + offset], the layer's opening angle
    [0.2 + (layerIdx / 6)^1.5 * 1.5] and the layer's height offset
    [-0.25 * layerIdx]. *)
Theorem petal_particle_metadata (config : LotusConfig) (activeColor : string)
        (k : nat) :
  (k < petalParticles config)%nat ->
  exists (q : Particle) (layerIdx p : nat) (layer : Layer),
    particleAt (generate random_seq Color_ofStyle Color_offsetHSL config
                         activeColor) k = Some q /\
    nth_error layersDef layerIdx = Some layer /\
    (p < count layer)%nat /\
    p_info q =
      vec3 (INR p * (PI * 2 / INR (count layer)) + offset layer)
           (0.2 + JS.Math_pow (INR layerIdx / 6) 1.5 * 1.5)
           (- (INR layerIdx * 0.25)).
Proof.
  intros Hk.
  destruct (generated_particle config activeColor k) as (Hpetal & _).
  destruct (Hpetal Hk)
    as (q & Hq & layerIdx & p & n & layer & u & v & _ & Hinfo & _ & _ &
        Hlayer & Hp & _).
  exists q, layerIdx, p, layer.
  split; [exact Hq |]. split; [exact Hlayer |]. split; [exact Hp |].
  rewrite Hinfo, calculatePetalShape_angle, totalLayers_value. reflexivity.
Qed.

(** X25.  Every petal particle's formed position lies in the box
    [|x| <= 2.625], [0 <= y <= 77/6], [0 <= z <= 4.375], whatever values
    [Math.random] returns: the jittered coordinates are clamped. *)
Theorem petal_particle_position_box (config : LotusConfig)
        (activeColor : string) (k : nat) :
  (k < petalParticles config)%nat ->
  exists q : Particle,
    particleAt (generate random_seq Color_ofStyle Color_offsetHSL config
                         activeColor) k = Some q /\
    Rabs (vx (p_pos q)) <= 2.625 /\
    0 <= vy (p_pos q) <= 77 / 6 /\
    0 <= vz (p_pos q) <= 4.375.
Proof.
  intros Hk.
  destruct (generated_particle config activeColor k) as (Hpetal & _).
  destruct (Hpetal Hk)
    as (q & Hq & layerIdx & p & n & layer & u & v & Hpos & _ & _ & _ &
        Hlayer & _ & Hu & Hv).
  exists q. split; [exact Hq |]. rewrite Hpos.
  assert (Hidx : (layerIdx < List.length layersDef)%nat).
  { apply nth_error_Some. congruence. }
  rewrite layersDef_length in Hidx.
  assert (Hratio : 0 <= INR layerIdx / INR (List.length layersDef) <= 5 / 6).
  { rewrite totalLayers_value. pose proof (pos_INR layerIdx).
    assert (INR layerIdx <= 5).
    { replace 5 with (INR 5) by (simpl; lra). apply le_INR. lia. }
    lra. }
  destruct (@petal_point_bounds u v (INR layerIdx)
              (INR (List.length layersDef)) Hu Hv (proj1 Hratio))
    as (Hx & Hy & Hz).
  repeat split; lra.
Qed.

(** X26.  When [Math.random] returns values in [[0,1)], the chaos position
    of a petal particle lies in the box [[-15,15) x [-10,10) x [-10,10)] and
    that of an aura particle in [[-20,20) x [-15,15) x [-20,20)]. *)
Theorem chaos_positions_in_box (config : LotusConfig) (activeColor : string)
        (k : nat) :
  (forall n, 0 <= random_seq n < 1) ->
  let geometry :=
    generate random_seq Color_ofStyle Color_offsetHSL config activeColor in
  ((k < petalParticles config)%nat ->
   exists q, particleAt geometry k = Some q /\
             -15 <= vx (p_rand q) < 15 /\
             -10 <= vy (p_rand q) < 10 /\
             -10 <= vz (p_rand q) < 10) /\
  ((petalParticles config <= k < petalParticles config + auraCount)%nat ->
   exists q, particleAt geometry k = Some q /\
             -20 <= vx (p_rand q) < 20 /\
             -15 <= vy (p_rand q) < 15 /\
             -20 <= vz (p_rand q) < 20).
Proof.
  intros Hrand geometry.
  destruct (generated_particle config activeColor k) as (Hpetal & Haura & _).
  split; intros Hk.
  - destruct (Hpetal Hk)
      as (q & Hq & layerIdx & p & n & layer & u & v & _ & _ & _ & Hr & _).
    exists q. split; [exact Hq |]. rewrite Hr. cbn [vx vy vz].
    pose proof (Hrand (S (S n))). pose proof (Hrand (S (S (S n)))).
    pose proof (Hrand (S (S (S (S n))))).
    repeat split; lra.
  - destruct (Haura Hk) as (q & Hq & n & _ & _ & Hr & _).
    exists q. split; [exact Hq |]. rewrite Hr. cbn [vx vy vz].
    pose proof (Hrand (S (S (S n)))). pose proof (Hrand (S (S (S (S n))))).
    pose proof (Hrand (S (S (S (S (S n)))))).
    repeat split; lra.
Qed.

(** X27.  When [Math.random] returns values in [[0,1)], every aura particle
    lies on the ring around the vertical axis with radius between 2 and 10
    and height between -5 and 5, and its colour is the light or the main
    tone dimmed to 60%. *)
Theorem aura_particles_on_ring (config : LotusConfig) (activeColor : string)
        (k : nat) :
  (forall n, 0 <= random_seq n < 1) ->
  (petalParticles config <= k < petalParticles config + auraCount)%nat ->
  let t := tones Color_ofStyle Color_offsetHSL activeColor in
  exists q : Particle,
    particleAt (generate random_seq Color_ofStyle Color_offsetHSL config
                         activeColor) k = Some q /\
    4 <= vx (p_pos q) * vx (p_pos q) + vz (p_pos q) * vz (p_pos q) < 100 /\
    -5 <= vy (p_pos q) < 5 /\
    (p_col q = vec3 (r (colLight t) * 0.6) (g (colLight t) * 0.6)
                    (b (colLight t) * 0.6) \/
     p_col q = vec3 (r (colMain t) * 0.6) (g (colMain t) * 0.6)
                    (b (colMain t) * 0.6)).
Proof.
  intros Hrand Hk t.
  destruct (generated_particle config activeColor k) as (_ & Haura & _).
  destruct (Haura Hk) as (q & Hq & n & Hpos & _ & _ & Hcol).
  exists q. split; [exact Hq |]. rewrite Hpos, Hcol. cbv zeta. cbn [vx vy vz].
  fold t.
  pose proof (Hrand n) as Hr. pose proof (Hrand (S (S n))) as Hy.
  unfold JS.Math_cos, JS.Math_sin.
  set (theta := random_seq (S n) * JS.Math_PI * 2).
  set (radius := 2 + random_seq n * 8).
  assert (Hrad : 2 <= radius < 10) by (subst radius; lra).
  pose proof (sin2_cos2 theta) as Hunit. unfold Rsqr in Hunit.
  replace (radius * cos theta * (radius * cos theta) +
           radius * sin theta * (radius * sin theta))
    with (radius * radius * (sin theta * sin theta + cos theta * cos theta))
    by ring.
  rewrite Hunit, Rmult_1_r.
  split; [nra |]. split; [lra |].
  destruct (JS.gtb _ 0.5); [left | right]; reflexivity.
Qed.

End ParticleFacts.

(** ** The particles of the initial configuration *)

Section InitialParticles.
Import THREE LotusParticles Growth Particles Scenario.

Lemma zeroRandom_unit (n : nat) : 0 <= zeroRandom n < 1.
Proof. unfold zeroRandom. lra. Qed.

Lemma initial_has_petals : (0 < petalParticles initialConfig)%nat.
Proof. pose proof petalParticles_initial. lia. Qed.

Lemma initial_aura_index :
  (petalParticles initialConfig <= petalParticles initialConfig
   < petalParticles initialConfig + auraCount)%nat.
Proof. pose proof auraCount_value. lia. Qed.

Lemma random_values_consumed_witness :
  Z.of_nat (drawn (generate_state zeroRandom plainStyle keepHSL initialConfig
                                  "#ffa6c9")) = 454475%Z.
Proof.
  assert (Hpos : (0 < petalCount initialConfig)%Z) by (simpl; lia).
  rewrite (@random_values_consumed zeroRandom plainStyle keepHSL
             initialConfig "#ffa6c9" Hpos).
  reflexivity.
Defined.

Lemma small_target_only_aura_witness :
  itemCount (positions (generate zeroRandom plainStyle keepHSL
                                 (mkConfig 500 4 0.06 0.1 1.5) "#ffa6c9"))
  = 8000.
Proof.
  assert (Hsmall : (petalCount (mkConfig 500 4 0.06 0.1 1.5) < 693)%Z)
    by (simpl; lia).
  exact (proj1 (@small_target_only_aura zeroRandom plainStyle keepHSL
                  (mkConfig 500 4 0.06 0.1 1.5) "#ffa6c9" 0%nat Hsmall)).
Defined.

Lemma petal_particle_metadata_witness :
  exists q : Particle,
    particleAt (generate zeroRandom plainStyle keepHSL initialConfig
                         "#ffa6c9") 0 = Some q /\
    vz (p_info q) <= 0.
Proof.
  destruct (@petal_particle_metadata zeroRandom plainStyle keepHSL
              initialConfig "#ffa6c9" 0%nat initial_has_petals)
    as (q & layerIdx & p & layer & Hq & _ & _ & Hinfo).
  exists q. split; [exact Hq |]. rewrite Hinfo. cbn [vz].
  pose proof (pos_INR layerIdx). lra.
Defined.

Lemma petal_particle_position_box_witness :
  exists q : Particle,
    particleAt (generate zeroRandom plainStyle keepHSL initialConfig
                         "#ffa6c9") 0 = Some q /\
    0 <= vy (p_pos q) <= 77 / 6.
Proof.
  destruct (@petal_particle_position_box zeroRandom plainStyle keepHSL
              initialConfig "#ffa6c9" 0%nat initial_has_petals)
    as (q & Hq & _ & Hy & _).
  exists q. split; assumption.
Defined.

Lemma chaos_positions_in_box_witness :
  exists q : Particle,
    particleAt (generate zeroRandom plainStyle keepHSL initialConfig
                         "#ffa6c9") 0 = Some q /\
    -15 <= vx (p_rand q) < 15.
Proof.
  destruct (proj1 (@chaos_positions_in_box zeroRandom plainStyle keepHSL
                     initialConfig "#ffa6c9" 0%nat zeroRandom_unit)
                  initial_has_petals)
    as (q & Hq & Hx & _).
  exists q. split; assumption.
Defined.

Lemma aura_particles_on_ring_witness :
  exists q : Particle,
    particleAt (generate zeroRandom plainStyle keepHSL initialConfig
                         "#ffa6c9") (petalParticles initialConfig) = Some q /\
    -5 <= vy (p_pos q) < 5.
Proof.
  destruct (@aura_particles_on_ring zeroRandom plainStyle keepHSL
              initialConfig "#ffa6c9" (petalParticles initialConfig)
              zeroRandom_unit initial_aura_index)
    as (q & Hq & _ & Hy & _).
  exists q. split; assumption.
Defined.

End InitialParticles.

(** ** Examples for the run, panel and start-up properties *)

Section MoreExamples.
Import HandTracker Runs Scenario.

Lemma threeFingerHand_open : isHandOpen threeFingerHand = Some true.
Proof.
  unfold isHandOpen.
  now rewrite (@extendedCount_exact threeFingerHand origin 3 eq_refl
                 threeFingerHand_extended).
Qed.

Lemma first_tick_blooms :
  isBlooming (runTicks [readyEnv] initialState) = true.
Proof.
  cbn [runTicks fold_left]. unfold tick, predict.
  cbn [readyEnv videoRef landmarkerRef readyState currentTime detected
       initialState lastVideoTimeRef Date_now andb Z.leb Z.compare
       Pos.compare Pos.compare_cont].
  assert (Hne : JS.neqb 0.5 (-1) = true) by (apply neqb_true; lra).
  rewrite Hne, threeFingerHand_open. reflexivity.
Qed.

Lemma signals_stay_consistent_witness :
  isHandPresent (runTicks [readyEnv] initialState) = true.
Proof.
  exact (proj2 (signals_stay_consistent [readyEnv]) first_tick_blooms).
Defined.

Lemma slider_change_is_local_witness :
  UIOverlay.read UIOverlay.bloomIntensityKey
    (UIOverlay.handleChange UIOverlay.rotationSpeedKey 0.5 initialConfig) =
  UIOverlay.read UIOverlay.bloomIntensityKey initialConfig.
Proof.
  refine (proj1 (proj2 (@slider_change_is_local UIOverlay.rotationSpeedKey 0.5
                          initialConfig)) UIOverlay.bloomIntensityKey _).
  discriminate.
Defined.

Lemma startup_failure_modes_witness :
  Lifecycle.landmarkerStored
    (Lifecycle.setupMediaPipe
       (Lifecycle.mkSetup true true true true true true)
       Lifecycle.initialComponent) = true /\
  Lifecycle.listening
    (Lifecycle.setupMediaPipe
       (Lifecycle.mkSetup true true false true true true)
       Lifecycle.initialComponent) = false.
Proof.
  destruct (startup_failure_modes
              (Lifecycle.mkSetup true true true true true true))
    as (_ & _ & _ & Hrun).
  destruct (startup_failure_modes
              (Lifecycle.mkSetup true true false true true true))
    as (_ & _ & Herr & _).
  split.
  - exact (proj1 (Hrun eq_refl)).
  - refine (proj1 (proj2 (Herr _))). discriminate.
Defined.

End MoreExamples.

(** ** The colour of a petal point *)

Section PetalColour.
Import THREE LotusParticles ColorRange.

(** A blend with a factor in [[0,1]] stays between the two colours. *)
Lemma Color_lerp_within (lo hi : R) (c color : Color) (alpha : R) :
  0 <= alpha <= 1 -> within lo hi c -> within lo hi color ->
  within lo hi (Color_lerp c color alpha).
Proof.
  intros Ha (Hr & Hg & Hb) (Hr' & Hg' & Hb').
  unfold within, Color_lerp. cbn [r g b].
  repeat split; nra.
Qed.

(** X28.  If the five tones have all their channels in [[lo, hi]], the colour
    mixed for a petal point with [u <= 0.9] has its channels in [[lo, hi]]
    too, in every layer and for every [v]: up to there every blend factor
    lies in [[0,1]]. *)
Theorem mixColor_within_tones (lo hi : R)
        (colDeep colMain colLight colTip colGold : Color)
        (layerIdx : nat) (u v : R) :
  within lo hi colDeep -> within lo hi colMain -> within lo hi colLight ->
  within lo hi colTip -> within lo hi colGold ->
  0 <= u <= 0.9 ->
  within lo hi (mixColor colDeep colMain colLight colTip colGold layerIdx u v).
Proof.
  intros Hdeep Hmain Hlight Htip Hgold Hu. unfold mixColor.
  destruct ((layerIdx =? 0)%nat && JS.ltb u 0.3).
  - apply Color_lerp_within; [lra | assumption | assumption].
  - assert (Hbody :
      within lo hi
        (if JS.ltb u 0.2 then Color_lerp colDeep colDeep 0.8
         else if JS.ltb u 0.6 then Color_lerp colDeep colMain u
         else Color_lerp (Color_lerp colDeep colMain 0.2) colLight
                         ((u - 0.5) * 2.5))).
    { destruct (JS.ltb u 0.2) eqn:E2.
      - apply Color_lerp_within; [lra | assumption | assumption].
      - destruct (JS.ltb u 0.6) eqn:E6.
        + apply ltb_true in E6.
          apply Color_lerp_within; [lra | assumption | assumption].
        + apply ltb_false in E6.
          apply Color_lerp_within; [lra | | assumption].
          apply Color_lerp_within; [lra | assumption | assumption]. }
    assert (Htipped :
      within lo hi
        (if JS.gtb u 0.92
         then Color_lerp
                (if JS.ltb u 0.2 then Color_lerp colDeep colDeep 0.8
                 else if JS.ltb u 0.6 then Color_lerp colDeep colMain u
                 else Color_lerp (Color_lerp colDeep colMain 0.2) colLight
                                 ((u - 0.5) * 2.5)) colTip 0.8
         else
           (if JS.ltb u 0.2 then Color_lerp colDeep colDeep 0.8
            else if JS.ltb u 0.6 then Color_lerp colDeep colMain u
            else Color_lerp (Color_lerp colDeep colMain 0.2) colLight
                            ((u - 0.5) * 2.5)))).
    { destruct (JS.gtb u 0.92); [| exact Hbody].
      apply Color_lerp_within; [lra | exact Hbody | assumption]. }
    destruct (JS.ltb (JS.Math_abs (v - 0.5)) 0.05); [| exact Htipped].
    apply Color_lerp_within; [lra | exact Htipped | assumption].
Qed.

Lemma mixColor_within_tones_witness :
  within 0 1 (mixColor (rgb 0 0 0) (rgb 1 0.5 0.5) (rgb 1 1 1) (rgb 1 1 1)
                       (rgb 1 0.6 0) 2 0.5 0.5).
Proof.
  apply mixColor_within_tones; unfold within; cbn [r g b];
    repeat split; lra.
Defined.

End PetalColour.

(** ** The inference loop from one tick to the next *)

Section RecordedTimestamp.
Import HandTracker Runs Scenario.






End RecordedTimestamp.

(** ** The aura sentinel *)

Section AuraSentinel.
Import THREE LotusParticles Growth Particles.

Variable random_seq : nat -> R.
Variable Color_ofStyle : string -> Color.
Variable Color_offsetHSL : Color -> R -> R -> R -> Color.

Lemma particleAt_info (geometry : Geometry) (k : nat) (q : Particle) :
  particleAt geometry k = Some q ->
  attribute (infos geometry) k = Some (p_info q).
Proof.
  unfold particleAt.
  destruct (attribute (positions geometry) k); [| discriminate].
  destruct (attribute (colors geometry) k); [| discriminate].
  destruct (attribute (infos geometry) k); [| discriminate].
  destruct (attribute (randoms geometry) k); [| discriminate].
  now intros [= <-].
Qed.

(** C10.  Particle [k] of the generated geometry, for [k] below the total
    count, has an info triple.  If it is a petal particle (one of the first
    [petals] particles), the triple is that of a petal [p] of a layer
    [layerIdx] of the table: the petal's rotation, the opening angle
    [0.2 + (layerIdx / 6)^1.5 * 1.5] of that same layer, and the layer's
    offset [-(layerIdx * 0.25)]; the angle is at least [0.2], hence at least
    [0.7] above the threshold [-0.5].  If it comes from the aura block, the
    triple is [(0, -1.0, 0)], and the angle is [0.5] below the threshold.
    So the shader's test [aInfo.y < -0.5] is true exactly for the particles
    of the aura block. *)
Theorem aura_sentinel_separates (config : LotusConfig) (activeColor : string)
        (k : nat) :
  let geometry :=
    generate random_seq Color_ofStyle Color_offsetHSL config activeColor in
  let petals := petalParticles config in
  (k < petals + auraCount)%nat ->
  exists aInfo : Vector3,
    attribute (infos geometry) k = Some aInfo /\
    (isAura aInfo = true <-> (petals <= k)%nat) /\
    ((k < petals)%nat ->
     (exists (layerIdx p : nat) (layer : Layer),
         (layerIdx < 6)%nat /\
         nth_error layersDef layerIdx = Some layer /\
         (p < count layer)%nat /\
         aInfo =
           vec3 (INR p * (PI * 2 / INR (count layer)) + offset layer)
                (0.2 + JS.Math_pow (INR layerIdx / 6) 1.5 * 1.5)
                (- (INR layerIdx * 0.25)) /\
         forall u v,
           snd (calculatePetalShape u v (INR layerIdx)
                                    (INR (List.length layersDef))) =
           vy aInfo) /\
     0.2 <= vy aInfo /\
     0.7 <= vy aInfo - (-0.5)) /\
    ((petals <= k)%nat ->
     aInfo = vec3 0 (-1.0) 0 /\
     vy aInfo = -1.0 /\ (-0.5) - vy aInfo = 0.5).
Proof.
  intros geometry petals Hk.
  destruct (generated_particle random_seq Color_ofStyle Color_offsetHSL
              config activeColor k) as (Hpetal & Haura & _).
  fold geometry in Hpetal, Haura. fold petals in Hpetal, Haura.
  destruct (Nat.lt_ge_cases k petals) as [Hlt | Hge].
  - destruct (Hpetal Hlt)
      as (q & Hq & layerIdx & p & n & layer & u & v & _ & Hinfo & _ & _ &
          Hlayer & Hp & _).
    exists (p_info q). split; [exact (@particleAt_info geometry k q Hq) |].
    assert (Hidx : (layerIdx < 6)%nat).
    { rewrite <- layersDef_length. apply nth_error_Some. congruence. }
    assert (Hform : p_info q =
              vec3 (INR p * (PI * 2 / INR (count layer)) + offset layer)
                   (0.2 + JS.Math_pow (INR layerIdx / 6) 1.5 * 1.5)
                   (- (INR layerIdx * 0.25))).
    { rewrite Hinfo, calculatePetalShape_angle, totalLayers_value.
      reflexivity. }
    assert (H02 : 0.2 <= vy (p_info q)).
    { rewrite Hform. cbn [vy].
      pose proof (Math_pow_15_nonneg (INR layerIdx / 6)). lra. }
    assert (Hnot : isAura (p_info q) = false) by (apply ltb_false; lra).
    split; [| split].
    + rewrite Hnot. split; [discriminate | lia].
    + intros _. split; [| split; lra].
      exists layerIdx, p, layer.
      split; [exact Hidx |]. split; [exact Hlayer |]. split; [exact Hp |].
      split; [exact Hform |].
      intros u' v'. rewrite Hform. cbn [vy].
      now rewrite calculatePetalShape_angle, totalLayers_value.
    + lia.
  - destruct Haura as (q & Hq & n & _ & Hinfo & _); [lia |].
    exists (p_info q). split; [exact (@particleAt_info geometry k q Hq) |].
    rewrite Hinfo. cbn [vy].
    assert (His : isAura (vec3 0 (-1.0) 0) = true).
    { apply ltb_true. cbn [vy]. lra. }
    split; [| split].
    + rewrite His. split; [intros _; exact Hge | reflexivity].
    + lia.
    + intros _. split; [reflexivity | split; lra].
Qed.

End AuraSentinel.

Section AuraSentinelExample.
Import THREE LotusParticles Growth Particles Scenario.

Lemma aura_sentinel_separates_witness :
  (exists aInfo : Vector3,
      attribute (infos (generate zeroRandom plainStyle keepHSL
                                 initialConfig "#ffa6c9")) 0 = Some aInfo /\
      isAura aInfo = false /\ 0.2 <= vy aInfo) /\
  (exists aInfo : Vector3,
      attribute (infos (generate zeroRandom plainStyle keepHSL
                                 initialConfig "#ffa6c9"))
                (petalParticles initialConfig) = Some aInfo /\
      isAura aInfo = true /\ aInfo = vec3 0 (-1.0) 0).
Proof.
  pose proof petalParticles_initial as Hpetals.
  pose proof auraCount_value as Haura.
  split.
  - assert (Hk : (0 < petalParticles initialConfig + auraCount)%nat) by lia.
    destruct (@aura_sentinel_separates zeroRandom plainStyle keepHSL
                initialConfig "#ffa6c9" 0%nat Hk)
      as (aInfo & Hattr & Hiff & Hpetal & _).
    exists aInfo. split; [exact Hattr |]. split.
    + destruct (isAura aInfo); [| reflexivity].
      assert (petalParticles initialConfig <= 0)%nat by now apply Hiff.
      lia.
    + apply Hpetal. lia.
  - assert (Hk : (petalParticles initialConfig <
                  petalParticles initialConfig + auraCount)%nat) by lia.
    destruct (@aura_sentinel_separates zeroRandom plainStyle keepHSL
                initialConfig "#ffa6c9" (petalParticles initialConfig) Hk)
      as (aInfo & Hattr & Hiff & _ & Hsent).
    exists aInfo. split; [exact Hattr |]. split.
    + apply Hiff. lia.
    + apply Hsent. lia.
Defined.

End AuraSentinelExample.
